(** * uev3dev.motors: tacho motor control over sysfs attribute endpoints

    A shallow embedding of [src/uev3dev/motors.py].  The Python methods of
    [TachoMotor] become functions in a small state-and-exception monad over
    a [world] that holds the attribute store of the kernel and a
    chronological trace of every access made to it.

    Numbers.  Python integers are [Z].  Arguments documented as numbers
    that may be fractional (speed, rotations, time) are exact rationals
    [Q]; [int(x)] is truncation toward zero.  The rationals stand for
    finite floats: rounding, overflow to infinity and NaN are outside the
    model, and a statement whose content depends on them carries the bound
    it needs as a hypothesis ([finite_float]).

    Text.  A [string] holds the UTF-8 bytes of a Python [str]. *)

From Stdlib Require Import ZArith QArith String Ascii List Lia.
From stdpp Require Import base decidable option list gmap strings.

Open Scope Z_scope.
Open Scope string_scope.

(** ** Python helpers *)

Module Py.

(** [int(x)] on a rational: truncation toward zero.  On a float, [int]
    raises for an infinity or a NaN; a rational is neither. *)
Definition int (x : Q) : Z := Z.quot (Qnum x) (Z.pos (Qden x)).

(** [s.split(sep)] for a one-character separator: every occurrence of the
    separator cuts, so consecutive separators give empty fields and the
    empty string gives one empty field. *)
Fixpoint split (sep : ascii) (s : string) : list string :=
  match s with
  | EmptyString => [EmptyString]
  | String c s' =>
      if Ascii.eqb c sep then EmptyString :: split sep s'
      else match split sep s' with
           | h :: t => String c h :: t
           | [] => [String c EmptyString]
           end
  end.

(** A continuation byte of a UTF-8 sequence: [10xxxxxx]. *)
Definition continuation (c : ascii) : bool :=
  match c with
  | Ascii _ _ _ _ _ _ false true => true
  | _ => false
  end.

(** [len(s)]: the number of characters, that is of the bytes that start a
    UTF-8 sequence. *)
Fixpoint len (s : string) : nat :=
  match s with
  | EmptyString => O
  | String c s' => if continuation c then len s' else S (len s')
  end.

(** Truthiness of a string: only the empty string is falsy. *)
Definition truthy (s : string) : bool :=
  match s with EmptyString => false | _ => true end.

End Py.

(** ** Exceptions and outcomes *)

Inductive exn : Type :=
| MotorNotFoundError (msg : string)
| ValueError (msg : string)
| OSError (msg : string)
| ZeroDivisionError.

(** The result of running a method: it returns, it raises, or the poll
    loop was still spinning when the step budget ran out. *)
Inductive outcome (A : Type) : Type :=
| Done (a : A)
| Raised (e : exn)
| Spinning.
Arguments Done {A} a.
Arguments Raised {A} e.
Arguments Spinning {A}.

(** ** The attribute store (collaborator [uev3dev.sysfs]) *)

Inductive value : Type :=
| VInt (z : Z)
| VStr (s : string).

Inductive mode : Type := R | W | RW.

(** An endpoint is named by its device node and its attribute name. *)
Abbreviation key := (string * string)%type.

Inductive event : Type :=
| EFind (subsystem port driver : string)
| EOpen (k : key) (m : mode)
| ERead (k : key) (shown : option value)
| EWrite (k : key) (v : value)
| ESleep (seconds : Q).

(** [nodes]: the device nodes that exist, as (subsystem, name) pairs.
    [files]: the current content of every attribute.
    [feed]: what the device will show next on the attributes it changes by
    itself; each read of such an attribute consumes one entry.
    [trace]: every access so far, oldest first. *)
Record world : Type := World {
  nodes : list (string * string);
  files : gmap key value;
  feed : gmap key (list value);
  trace : list event
}.

Definition log (e : event) (w : world) : world :=
  World (nodes w) (files w) (feed w) (trace w ++ [e]).

(** The world after value [v] was written to endpoint [k]. *)
Definition put (k : key) (v : value) (w : world) : world :=
  World (nodes w) (<[k := v]> (files w)) (feed w) (trace w ++ [EWrite k v]).

(** The events of [w'] that came after those of [w]. *)
Definition since (w w' : world) : list event :=
  drop (length (trace w)) (trace w').

(** ** The monad of methods *)

Definition M (A : Type) : Type := world -> world * outcome A.

Definition ret {A} (a : A) : M A := fun w => (w, Done a).

Definition raise {A} (e : exn) : M A := fun w => (w, Raised e).

Definition bind {A B} (c : M A) (k : A -> M B) : M B :=
  fun w =>
    match c w with
    | (w', Done a) => k a w'
    | (w', Raised e) => (w', Raised e)
    | (w', Spinning) => (w', Spinning)
    end.

Notation "x <- c ;; k" := (bind c (fun x => k))
  (at level 100, c at next level, right associativity).
Notation "c ;;; k" := (bind c (fun _ => k))
  (at level 100, right associativity).

Module sysfs.

(** Modelled from the spec: [uev3dev.sysfs] is not part of the sources.
    The spec describes it as typed read/write accessors over named
    attributes, keyed by a device node that is located by subsystem name,
    port and driver match.  A node's path is its class directory joined
    with its name. *)
Definition node_path (subsystem name : string) : string :=
  "/sys/class/" ++ subsystem ++ "/" ++ name.

Definition shows (w : world) (k : key) (s : string) : bool :=
  match files w !! k with
  | Some (VStr s') => String.eqb s' s
  | _ => false
  end.

Definition matches (w : world) (subsystem port driver : string)
    (n : string * string) : bool :=
  String.eqb (fst n) subsystem
  && shows w (node_path (fst n) (snd n), "address") port
  && shows w (node_path (fst n) (snd n), "driver_name") driver.

(** Modelled from the spec: the lookup of a device node; [None] when no
    node of the subsystem is on that port with that driver. *)
Definition find_node (subsystem port driver : string) : M (option string) :=
  fun w =>
    (log (EFind subsystem port driver) w,
     Done (match List.filter (matches w subsystem port driver) (nodes w) with
           | n :: _ => Some (node_path (fst n) (snd n))
           | [] => None
           end)).

(** An open endpoint. *)
Record Attribute : Type := Attr { attr_key : key; attr_mode : mode }.

(** Modelled from the spec: opening an endpoint of a node.  It fails when
    the node has no such attribute. *)
Definition open (node name : string) (m : mode) : M Attribute :=
  fun w =>
    let w' := log (EOpen (node, name) m) w in
    match files w !! (node, name) with
    | Some _ => (w', Done (Attr (node, name) m))
    | None => (w', Raised (OSError name))
    end.

(** Modelled from the spec: one raw read.  An attribute the device drives
    shows the next entry of its feed, which becomes its content. *)
Definition read_value (a : Attribute) : M value :=
  fun w =>
    let k := attr_key a in
    match feed w !! k with
    | Some (v :: rest) =>
        (World (nodes w) (<[k := v]> (files w)) (<[k := rest]> (feed w))
               (trace w ++ [ERead k (Some v)]), Done v)
    | _ =>
        match files w !! k with
        | Some v => (log (ERead k (Some v)) w, Done v)
        | None => (log (ERead k None) w, Raised (OSError (snd k)))
        end
    end.

(** Modelled from the spec: the write accessor; the store takes every
    value offered to an open endpoint. *)
Definition write_value (a : Attribute) (v : value) : M unit :=
  fun w => (put (attr_key a) v w, Done tt).

(** [Attribute.read] and [Attribute.write]: text. *)
Definition read (a : Attribute) : M string :=
  v <- read_value a ;;
  match v with
  | VStr s => ret s
  | VInt _ => raise (OSError (snd (attr_key a)))
  end.

Definition write (a : Attribute) (s : string) : M unit :=
  write_value a (VStr s).

(** [IntAttribute.read] and [IntAttribute.write]: integers. *)
Definition read_int (a : Attribute) : M Z :=
  v <- read_value a ;;
  match v with
  | VInt z => ret z
  | VStr _ => raise (ValueError (snd (attr_key a)))
  end.

Definition write_int (a : Attribute) (z : Z) : M unit :=
  write_value a (VInt z).

End sysfs.

(** [utime.sleep(seconds)] for a duration that is not negative: the pause
    is recorded in the trace.  What the call does with a negative duration
    depends on the platform and is not modelled; a statement about a call
    that sleeps assumes the duration is not negative. *)
Definition sleep (seconds : Q) : M unit :=
  fun w => (log (ESleep seconds) w, Done tt).

(** ** [uev3dev.motors] *)

(** [StopAction = util.enum(COAST='coast', BRAKE='brake', HOLD='hold')] *)
Module StopAction.
Definition COAST : string := "coast".
Definition BRAKE : string := "brake".
Definition HOLD : string := "hold".
End StopAction.

(** [x < y] on rationals, as a boolean. *)
Definition Qltb (x y : Q) : bool := negb (Qle_bool y x).

Module TachoMotor.

Import sysfs.

Definition EV3_LARGE : string := "lego-ev3-l-motor".
Definition EV3_MEDIUM : string := "lego-ev3-m-motor".

(** The instance attributes set by [__init__]. *)
Record self : Type := Self {
  _command : Attribute;
  _commands : list string;
  _count_per_rot : Z;
  _driver_name : string;
  _duty_cycle : Attribute;
  _duty_cycle_sp : Attribute;
  _max_speed : Z;
  _position : Attribute;
  _position_sp : Attribute;
  _ramp_up_sp : Attribute;
  _ramp_down_sp : Attribute;
  _speed_sp : Attribute;
  _state : Attribute;
  _stop_action : Attribute;
  _stop_actions : list string;
  _time_sp : Attribute;
  port : string
}.

(** [MotorNotFoundError(name, port)] and its message. *)
Definition not_found (name port : string) : exn :=
  MotorNotFoundError (name ++ " not found on port " ++ port).

(** [__init__(self, port, driver)]; [cls] is [self.__class__.__name__]. *)
Definition __init__ (cls port driver : string) : M self :=
  let port := if Nat.eqb (Py.len port) 1 then "ev3-ports:out" ++ port else port in
  found <- find_node "tacho-motor" port driver ;;
  match found with
  | None => raise (not_found cls port)
  | Some node =>
      if negb (Py.truthy node) then raise (not_found cls port) else
      command <- open node "command" W ;;
      a <- open node "commands" R ;;
      commands <- read a ;;
      a <- open node "count_per_rot" R ;;
      count_per_rot <- read_int a ;;
      a <- open node "driver_name" R ;;
      driver_name <- read a ;;
      duty_cycle <- open node "duty_cycle" R ;;
      duty_cycle_sp <- open node "duty_cycle_sp" RW ;;
      a <- open node "max_speed" R ;;
      max_speed <- read_int a ;;
      position <- open node "position" R ;;
      position_sp <- open node "position_sp" RW ;;
      ramp_up_sp <- open node "ramp_up_sp" RW ;;
      ramp_down_sp <- open node "ramp_down_sp" RW ;;
      speed_sp <- open node "speed_sp" RW ;;
      state <- open node "state" R ;;
      stop_action <- open node "stop_action" RW ;;
      a <- open node "stop_actions" R ;;
      stop_actions <- read a ;;
      time_sp <- open node "time_sp" RW ;;
      let m := Self command (Py.split " " commands) count_per_rot driver_name
                    duty_cycle duty_cycle_sp max_speed position position_sp
                    ramp_up_sp ramp_down_sp speed_sp state stop_action
                    (Py.split " " stop_actions) time_sp port in
      write command "reset" ;;;
      ret m
  end.

Definition _set_duty_cycle_sp (m : self) (duty_cycle : Z) : M unit :=
  if ((duty_cycle <? -100) || (duty_cycle >? 100))%Z
  then raise (ValueError "duty cycle is out of range")
  else write_int (_duty_cycle_sp m) duty_cycle.

Definition _set_speed_sp (m : self) (speed : Q) : M unit :=
  let speed := Py.int (speed * inject_Z (_count_per_rot m) / 360) in
  if ((speed <? - _max_speed m) || (speed >? _max_speed m))%Z
  then raise (ValueError "speed is out of range")
  else write_int (_speed_sp m) speed.

Definition _set_position_sp (m : self) (rotations : Q) : M unit :=
  let counts := Py.int (inject_Z (_count_per_rot m) * rotations) in
  write_int (_position_sp m) counts.

Definition _set_time_sp (m : self) (time : Z) : M unit :=
  if (time <? 0)%Z
  then raise (ValueError "time is out of range")
  else write_int (_time_sp m) time.

Definition _set_stop_action (m : self) (action : string) : M unit :=
  if bool_decide (action ∈ _stop_actions m)
  then write (_stop_action m) action
  else raise (ValueError "Invalid stop action").

(** The property [nominal_speed]; [/] is true division. *)
Definition nominal_speed (m : self) : M Q :=
  if (_max_speed m =? 0)%Z then raise ZeroDivisionError
  else ret (inject_Z (_count_per_rot m) * 360 / inject_Z (_max_speed m))%Q.

Definition run (m : self) (speed : Q) : M unit :=
  _set_speed_sp m speed ;;;
  write (_command m) "run-forever".

(** The loop [while wait: ...] of [run_for_rotations], entered with
    [wait = True]; [fuel] bounds the number of polls. *)
Fixpoint poll (fuel : nat) (m : self) : M unit :=
  match fuel with
  | O => fun w => (w, Spinning)
  | S fuel' =>
      s <- read (_state m) ;;
      let state := Py.split " " s in
      if negb (bool_decide ("running" ∈ state)) || bool_decide ("holding" ∈ state)
      then ret tt
      else poll fuel' m
  end.

Definition run_for_rotations (fuel : nat) (m : self) (speed rotations : Q)
    (stop_action : string) (wait : bool) : M unit :=
  let rotations := if Qltb speed 0 then (rotations * -1)%Q else rotations in
  _set_speed_sp m speed ;;;
  _set_stop_action m stop_action ;;;
  _set_position_sp m rotations ;;;
  write (_command m) "run-to-rel-pos" ;;;
  if wait then poll fuel m else ret tt.

Definition run_for_time (m : self) (speed time : Q)
    (stop_action : string) (wait : bool) : M unit :=
  _set_speed_sp m speed ;;;
  _set_time_sp m (Py.int (time * 1000)) ;;;
  _set_stop_action m stop_action ;;;
  if wait then
    write (_command m) "run-forever" ;;;
    sleep time ;;;
    write (_command m) "stop"
  else
    write (_command m) "run-timed".

Definition run_unregulated (m : self) (duty_cycle : Z) : M unit :=
  _set_duty_cycle_sp m duty_cycle ;;;
  write (_command m) "run-direct".

Definition stop (m : self) (action : string) : M unit :=
  _set_stop_action m action ;;;
  write (_command m) "stop".

End TachoMotor.

(** [LargeMotor(port)] and [MediumMotor(port)]. *)
Definition LargeMotor (port : string) : M TachoMotor.self :=
  TachoMotor.__init__ "LargeMotor" port TachoMotor.EV3_LARGE.

Definition MediumMotor (port : string) : M TachoMotor.self :=
  TachoMotor.__init__ "MediumMotor" port TachoMotor.EV3_MEDIUM.

(** ** Vocabulary of the specification *)

Import TachoMotor.
Open Scope list_scope.

(** The speed setpoint in tacho counts per second that [_set_speed_sp]
    computes from a speed in degrees per second. *)
Definition native_speed (m : self) (speed : Q) : Z :=
  Py.int (speed * inject_Z (_count_per_rot m) / 360).

(** The position setpoint in tacho counts for a number of rotations. *)
Definition native_position (m : self) (rotations : Q) : Z :=
  Py.int (inject_Z (_count_per_rot m) * rotations).

(** The cached [max_speed] (tacho counts per second) converted to degrees
    per second. *)
Definition max_speed_deg_s (m : self) : Q :=
  inject_Z (_max_speed m) * 360 / inject_Z (_count_per_rot m).

(** The endpoints of [m] are the attributes of device node [node] that
    [__init__] opens. *)
Record endpoints (node : string) (m : self) : Prop := {
  ep_command : sysfs.attr_key (_command m) = (node, "command");
  ep_duty_cycle : sysfs.attr_key (_duty_cycle m) = (node, "duty_cycle");
  ep_duty_cycle_sp : sysfs.attr_key (_duty_cycle_sp m) = (node, "duty_cycle_sp");
  ep_position : sysfs.attr_key (_position m) = (node, "position");
  ep_position_sp : sysfs.attr_key (_position_sp m) = (node, "position_sp");
  ep_ramp_up_sp : sysfs.attr_key (_ramp_up_sp m) = (node, "ramp_up_sp");
  ep_ramp_down_sp : sysfs.attr_key (_ramp_down_sp m) = (node, "ramp_down_sp");
  ep_speed_sp : sysfs.attr_key (_speed_sp m) = (node, "speed_sp");
  ep_state : sysfs.attr_key (_state m) = (node, "state");
  ep_stop_action : sysfs.attr_key (_stop_action m) = (node, "stop_action");
  ep_time_sp : sysfs.attr_key (_time_sp m) = (node, "time_sp")
}.

(** The values written to endpoint [k] in a trace, oldest first. *)
Fixpoint writes_to (k : key) (tr : list event) : list value :=
  match tr with
  | [] => []
  | EWrite k' v :: tr' =>
      if decide (k' = k) then v :: writes_to k tr' else writes_to k tr'
  | _ :: tr' => writes_to k tr'
  end.

(** An event is a read of endpoint [k]. *)
Definition is_read (k : key) (e : event) : Prop :=
  exists shown, e = ERead k shown.

(** The order of C8 as the specification words it: the command [reset]
    is written to [cmd] before anything is read. *)
Fixpoint reset_precedes_reads (cmd : key) (tr : list event) : bool :=
  match tr with
  | [] => true
  | ERead _ _ :: _ => false
  | EWrite k (VStr s) :: tr' =>
      if bool_decide (k = cmd) && String.eqb s "reset" then true
      else reset_precedes_reads cmd tr'
  | _ :: tr' => reset_precedes_reads cmd tr'
  end.

(** The calls a program can make on a motor. *)
Inductive call : Type :=
| Run (speed : Q)
| RunForRotations (speed rotations : Q) (stop_action : string) (wait : bool)
| RunForTime (speed time : Q) (stop_action : string) (wait : bool)
| RunUnregulated (duty_cycle : Z)
| Stop (action : string).

Definition exec (fuel : nat) (m : self) (c : call) : M unit :=
  match c with
  | Run speed => run m speed
  | RunForRotations speed rotations a wait =>
      run_for_rotations fuel m speed rotations a wait
  | RunForTime speed time a wait => run_for_time m speed time a wait
  | RunUnregulated d => run_unregulated m d
  | Stop a => stop m a
  end.

(** Every value written so far to the time setpoint of [node] is a
    non-negative integer, and so is the value it holds. *)
Definition nonneg_int (v : value) : Prop :=
  match v with VInt z => 0 <= z | VStr _ => False end.

Definition time_sp_nonneg (node : string) (w : world) : Prop :=
  Forall nonneg_int (writes_to (node, "time_sp") (trace w))
  /\ (forall v, files w !! (node, "time_sp") = Some v -> nonneg_int v).

(** The port name that [__init__] looks up and stores: a one-character
    port is an output port of the brick. *)
Definition looked_up (port : string) : string :=
  if Nat.eqb (Py.len port) 1 then ("ev3-ports:out" ++ port)%string else port.

(** The accesses of a construction that runs to its end on device node
    [node], where [cs] and [ss] are the texts shown by [commands] and
    [stop_actions]. *)
Definition construction (port driver node cs ss : string) (m : self)
    : list event :=
  [ EFind "tacho-motor" port driver;
    EOpen (node, "command") W;
    EOpen (node, "commands") R;
    ERead (node, "commands") (Some (VStr cs));
    EOpen (node, "count_per_rot") R;
    ERead (node, "count_per_rot") (Some (VInt (_count_per_rot m)));
    EOpen (node, "driver_name") R;
    ERead (node, "driver_name") (Some (VStr (_driver_name m)));
    EOpen (node, "duty_cycle") R;
    EOpen (node, "duty_cycle_sp") RW;
    EOpen (node, "max_speed") R;
    ERead (node, "max_speed") (Some (VInt (_max_speed m)));
    EOpen (node, "position") R;
    EOpen (node, "position_sp") RW;
    EOpen (node, "ramp_up_sp") RW;
    EOpen (node, "ramp_down_sp") RW;
    EOpen (node, "speed_sp") RW;
    EOpen (node, "state") R;
    EOpen (node, "stop_action") RW;
    EOpen (node, "stop_actions") R;
    ERead (node, "stop_actions") (Some (VStr ss));
    EOpen (node, "time_sp") RW;
    EWrite (node, "command") (VStr "reset") ].

(** [wp c Q w]: running [c] in [w] ends in a world and an outcome that
    satisfy [Q]. *)
Definition wp {A} (c : M A) (Q : world -> outcome A -> Prop) (w : world) : Prop :=
  Q (c w).1 (c w).2.

(** What a continuation owes after the first half of a [bind]. *)
Definition wp_then {A B} (k : A -> M B) (Q : world -> outcome B -> Prop)
    (w : world) (o : outcome A) : Prop :=
  match o with
  | Done a => wp (k a) Q w
  | Raised e => Q w (Raised e)
  | Spinning => Q w Spinning
  end.

(** An exception of the attribute store, not of the motor lookup. *)
Definition store_error (e : exn) : Prop :=
  match e with MotorNotFoundError _ => False | _ => True end.

(** What a construction that found its node has done when it ends: it
    returned a motor after the accesses of [construction], or the store
    raised after the lookup. *)
Definition built (w : world) (port driver node : string)
    (w' : world) (o : outcome self) : Prop :=
  match o with
  | Done m =>
      exists cs ss,
        since w w' = construction (looked_up port) driver node cs ss m
        /\ endpoints node m
        /\ TachoMotor.port m = looked_up port
        /\ _commands m = Py.split " " cs
        /\ _stop_actions m = Py.split " " ss
  | Raised e =>
      store_error e
      /\ exists l, since w w' = EFind "tacho-motor" (looked_up port) driver :: l
                   /\ forall k, writes_to k l = []
  | Spinning => False
  end.

(** Attribute [k] holds a text, or an integer, and the device is not about
    to change it. *)
Definition has_text (w : world) (k : key) : Prop :=
  (exists s, files w !! k = Some (VStr s)) /\ feed w !! k = None.

Definition has_int (w : world) (k : key) : Prop :=
  (exists z, files w !! k = Some (VInt z)) /\ feed w !! k = None.

(** Device node [node] presents the attributes of a tacho motor. *)
Definition presents (w : world) (node : string) : Prop :=
  has_text w (node, "commands")
  /\ has_int w (node, "count_per_rot")
  /\ has_text w (node, "driver_name")
  /\ has_int w (node, "max_speed")
  /\ has_text w (node, "stop_actions")
  /\ Forall (fun name => is_Some (files w !! (node, name)))
       ["command"; "commands"; "count_per_rot"; "driver_name"; "duty_cycle";
        "duty_cycle_sp"; "max_speed"; "position"; "position_sp"; "ramp_up_sp";
        "ramp_down_sp"; "speed_sp"; "state"; "stop_action"; "stop_actions";
        "time_sp"].

(** Running [c] keeps [P]. *)
Definition keeps {A} (P : world -> Prop) (c : M A) : Prop :=
  forall w, P w -> P (c w).1.

(** ** A large motor on port A, for concrete runs *)

Module Bench.

Definition node : string := sysfs.node_path "tacho-motor" "motor0".

Definition files0 : gmap key value :=
  list_to_map
    [ ((node, "address"), VStr "ev3-ports:outA");
      ((node, "driver_name"), VStr "lego-ev3-l-motor");
      ((node, "command"), VStr "");
      ((node, "commands"), VStr "run-forever run-to-rel-pos run-timed run-direct stop reset");
      ((node, "count_per_rot"), VInt 360);
      ((node, "duty_cycle"), VInt 0);
      ((node, "duty_cycle_sp"), VInt 0);
      ((node, "max_speed"), VInt 1050);
      ((node, "position"), VInt 0);
      ((node, "position_sp"), VInt 0);
      ((node, "ramp_up_sp"), VInt 0);
      ((node, "ramp_down_sp"), VInt 0);
      ((node, "speed_sp"), VInt 0);
      ((node, "state"), VStr "");
      ((node, "stop_action"), VStr "coast");
      ((node, "stop_actions"), VStr "coast brake hold");
      ((node, "time_sp"), VInt 0) ].

Definition w0 : world := World [("tacho-motor", "motor0")] files0 ∅ [].

Definition at_ (name : string) (md : mode) : sysfs.Attribute :=
  sysfs.Attr (node, name) md.

(** The motor that [LargeMotor('A')] builds in [w0]. *)
Definition motor : self :=
  Self (at_ "command" W)
       ["run-forever"; "run-to-rel-pos"; "run-timed"; "run-direct"; "stop"; "reset"]
       360 "lego-ev3-l-motor" (at_ "duty_cycle" R) (at_ "duty_cycle_sp" RW)
       1050 (at_ "position" R) (at_ "position_sp" RW) (at_ "ramp_up_sp" RW)
       (at_ "ramp_down_sp" RW) (at_ "speed_sp" RW) (at_ "state" R)
       (at_ "stop_action" RW) ["coast"; "brake"; "hold"] (at_ "time_sp" RW)
       "ev3-ports:outA".

End Bench.

(** ** Vocabulary for the remaining behaviour *)

(** The exit test of the wait loop of [run_for_rotations] on one state
    text: ['running' not in state or 'holding' in state]. *)
Definition stops (s : string) : bool :=
  negb (bool_decide ("running" ∈ Py.split " " s))
  || bool_decide ("holding" ∈ Py.split " " s).

(** The commands a call writes when it goes through, oldest first. *)
Definition commands_of (c : call) : list string :=
  match c with
  | Run _ => ["run-forever"]
  | RunForRotations _ _ _ _ => ["run-to-rel-pos"]
  | RunForTime _ _ _ true => ["run-forever"; "stop"]
  | RunForTime _ _ _ false => ["run-timed"]
  | RunUnregulated _ => ["run-direct"]
  | Stop _ => ["stop"]
  end.

(** The reads of endpoint [k] that showed the texts [l], one after the
    other. *)
Definition reads_of (k : key) (l : list string) : list event :=
  map (fun s => ERead k (Some (VStr s))) l.

(** Words joined by single spaces, as the kernel lists them. *)
Fixpoint join_words (ws : list string) : string :=
  match ws with
  | [] => EmptyString
  | [x] => x
  | x :: ws' => (x ++ " " ++ join_words ws')%string
  end.

(** A word without a space in it. *)
Fixpoint spaceless (s : string) : bool :=
  match s with
  | EmptyString => true
  | String c s' => negb (Ascii.eqb c " ") && spaceless s'
  end.

(** The call asks [utime.sleep] for no negative duration: a call of
    [run_for_time] with [wait] has a non-negative [time]. *)
Definition sleeps_forward (c : call) : Prop :=
  match c with
  | RunForTime _ time _ true => (0 <= time)%Q
  | _ => True
  end.

(** What the outcome of call [c], run from world [w], says about the
    command attribute of [node]: nothing was written to it when a range
    check failed, the commands of [c] were written otherwise. *)
Definition outcome_commands (node : string) (w : world) (c : call)
    (r : world * outcome unit) : Prop :=
  match r.2 with
  | Raised (ValueError _) =>
      writes_to (node, "command") (since w r.1) = []
      /\ files r.1 !! (node, "command") = files w !! (node, "command")
  | _ => writes_to (node, "command") (since w r.1) = map VStr (commands_of c)
  end.

(** The bench with the motor turning: the state attribute will show
    [states], one per read. *)
Definition turning (states : list string) : world :=
  World (nodes Bench.w0) (files Bench.w0)
        {[ (Bench.node, "state") := map VStr states ]} [].

(** The bench with the motor stuck: the state attribute shows [s] and does
    not change. *)
Definition stuck (s : string) : world :=
  World (nodes Bench.w0) (<[(Bench.node, "state") := VStr s]> (files Bench.w0)) ∅ [].

(** The motor on device node [node] whose cached properties are the
    texts [cs] (commands) and [ss] (stop actions), the counts per rotation
    [cpr], the driver name [dn] and the maximum speed [ms]. *)
Definition motor_on (node port cs : string) (cpr : Z) (dn : string) (ms : Z)
    (ss : string) : self :=
  Self (sysfs.Attr (node, "command") W) (Py.split " " cs) cpr dn
       (sysfs.Attr (node, "duty_cycle") R) (sysfs.Attr (node, "duty_cycle_sp") RW)
       ms (sysfs.Attr (node, "position") R) (sysfs.Attr (node, "position_sp") RW)
       (sysfs.Attr (node, "ramp_up_sp") RW) (sysfs.Attr (node, "ramp_down_sp") RW)
       (sysfs.Attr (node, "speed_sp") RW) (sysfs.Attr (node, "state") R)
       (sysfs.Attr (node, "stop_action") RW) (Py.split " " ss)
       (sysfs.Attr (node, "time_sp") RW) port.

(** The ranges of the setpoints of motor [m], as predicates on the values
    written. *)
Definition speed_value_ok (m : self) (v : value) : Prop :=
  exists z, v = VInt z /\ - _max_speed m <= z <= _max_speed m.

Definition duty_value_ok (v : value) : Prop :=
  exists z, v = VInt z /\ -100 <= z <= 100.

Definition action_value_ok (m : self) (v : value) : Prop :=
  exists a, v = VStr a /\ a ∈ _stop_actions m.

(** Every setpoint written in trace [tr] to the endpoints of [node] is in
    its range. *)
Definition setpoints_ok (node : string) (m : self) (tr : list event) : Prop :=
  Forall (speed_value_ok m) (writes_to (node, "speed_sp") tr)
  /\ Forall duty_value_ok (writes_to (node, "duty_cycle_sp") tr)
  /\ Forall (action_value_ok m) (writes_to (node, "stop_action") tr).

(** A port name of one character that is not ASCII: the two UTF-8 bytes
    of e with an acute accent. *)
Definition e_acute : string := String "195" (String "169" EmptyString).

(** The bench with its motor on the output port of that name. *)
Definition accented : world :=
  World (nodes Bench.w0)
        (<[(Bench.node, "address") := VStr ("ev3-ports:out" ++ e_acute)%string]>
           (files Bench.w0))
        ∅ [].

(** The magnitude of [x] is within the range of a finite float, with room
    to spare: below [2 ^ 1023]. *)
Definition finite_float (x : Q) : Prop :=
  (- inject_Z (2 ^ 1023) < x)%Q /\ (x < inject_Z (2 ^ 1023))%Q.

(** ** Facts about [int] and the unit conversions *)

Section Conversion.

Lemma int_le (q : Q) (b : Z) : (q <= inject_Z b)%Q -> Py.int q <= b.
Proof.
  destruct q as [n d]. unfold Qle, Py.int; cbn. intros H.
  rewrite Z.mul_1_r in H.
  rewrite <- (Z.quot_mul b (Z.pos d)) by lia.
  apply Z.quot_le_mono; lia.
Qed.

Lemma int_ge (q : Q) (b : Z) : (inject_Z b <= q)%Q -> b <= Py.int q.
Proof.
  destruct q as [n d]. unfold Qle, Py.int; cbn. intros H.
  rewrite Z.mul_1_r in H.
  rewrite <- (Z.quot_mul b (Z.pos d)) by lia.
  apply Z.quot_le_mono; lia.
Qed.

Lemma to_native_le (s : Q) (c b : Z) :
  0 < c -> (s <= inject_Z b * 360 / inject_Z c)%Q ->
  (s * inject_Z c / 360 <= inject_Z b)%Q.
Proof.
  intros Hc. destruct c as [|p|p]; try lia.
  destruct s as [n d]. unfold Qle, Qdiv, Qmult, Qinv, inject_Z; cbn.
  intros H. nia.
Qed.

Lemma to_native_ge (s : Q) (c b : Z) :
  0 < c -> (- (inject_Z b * 360 / inject_Z c) <= s)%Q ->
  (inject_Z (- b) <= s * inject_Z c / 360)%Q.
Proof.
  intros Hc. destruct c as [|p|p]; try lia.
  destruct s as [n d]. unfold Qle, Qdiv, Qmult, Qinv, Qopp, inject_Z; cbn.
  intros H. nia.
Qed.

Lemma native_speed_opp (m : self) (s : Q) :
  native_speed m (- s) = - native_speed m s.
Proof.
  unfold native_speed, Py.int. destruct s as [n d]; cbn.
  rewrite <- Z.quot_opp_l by lia. f_equal. lia.
Qed.

Lemma native_position_opp (m : self) (r : Q) :
  native_position m (r * -1) = - native_position m r.
Proof.
  unfold native_position, Py.int. destruct r as [n d]; cbn.
  rewrite Pos.mul_1_r.
  rewrite <- Z.quot_opp_l by lia. f_equal. lia.
Qed.

Lemma Qltb_pos (s : Q) : (0 < s)%Q -> Qltb s 0 = false /\ Qltb (- s) 0 = true.
Proof.
  intros Hs. unfold Qltb. split.
  - apply negb_false_iff, Qle_bool_iff, Qlt_le_weak, Hs.
  - apply negb_true_iff. destruct (Qle_bool 0 (- s)) eqn:E; [|reflexivity].
    apply Qle_bool_iff in E. exfalso.
    destruct s as [n d]. unfold Qlt, Qle in *; cbn in *. lia.
Qed.

End Conversion.

(** ** The setters, case by case *)

Section Setters.

Variable m : self.
Variable w : world.

Lemma set_speed_in (speed : Q) :
  - _max_speed m <= native_speed m speed <= _max_speed m ->
  _set_speed_sp m speed w
  = (put (sysfs.attr_key (_speed_sp m)) (VInt (native_speed m speed)) w, Done tt).
Proof.
  intros H. unfold _set_speed_sp. fold (native_speed m speed).
  replace (native_speed m speed <? - _max_speed m)%Z with false
    by (symmetry; apply Z.ltb_ge; lia).
  replace (native_speed m speed >? _max_speed m)%Z with false
    by (symmetry; rewrite Z.gtb_ltb; apply Z.ltb_ge; lia).
  reflexivity.
Qed.

Lemma set_speed_out (speed : Q) :
  native_speed m speed < - _max_speed m \/ _max_speed m < native_speed m speed ->
  _set_speed_sp m speed w = (w, Raised (ValueError "speed is out of range")).
Proof.
  intros H. unfold _set_speed_sp. fold (native_speed m speed).
  replace ((native_speed m speed <? - _max_speed m)
           || (native_speed m speed >? _max_speed m))%Z with true; [reflexivity|].
  symmetry. apply orb_true_iff. rewrite Z.gtb_ltb, !Z.ltb_lt. lia.
Qed.

Lemma set_time_in (t : Z) :
  0 <= t ->
  _set_time_sp m t w = (put (sysfs.attr_key (_time_sp m)) (VInt t) w, Done tt).
Proof.
  intros H. unfold _set_time_sp.
  replace (t <? 0)%Z with false by (symmetry; apply Z.ltb_ge; lia).
  reflexivity.
Qed.

Lemma set_time_out (t : Z) :
  t < 0 ->
  _set_time_sp m t w = (w, Raised (ValueError "time is out of range")).
Proof.
  intros H. unfold _set_time_sp.
  replace (t <? 0)%Z with true by (symmetry; apply Z.ltb_lt; lia).
  reflexivity.
Qed.

Lemma set_duty_cycle_in (d : Z) :
  -100 <= d <= 100 ->
  _set_duty_cycle_sp m d w
  = (put (sysfs.attr_key (_duty_cycle_sp m)) (VInt d) w, Done tt).
Proof.
  intros H. unfold _set_duty_cycle_sp.
  replace (d <? -100)%Z with false by (symmetry; apply Z.ltb_ge; lia).
  replace (d >? 100)%Z with false
    by (symmetry; rewrite Z.gtb_ltb; apply Z.ltb_ge; lia).
  reflexivity.
Qed.

Lemma set_duty_cycle_out (d : Z) :
  d < -100 \/ 100 < d ->
  _set_duty_cycle_sp m d w = (w, Raised (ValueError "duty cycle is out of range")).
Proof.
  intros H. unfold _set_duty_cycle_sp.
  replace ((d <? -100) || (d >? 100))%Z with true; [reflexivity|].
  symmetry. apply orb_true_iff. rewrite Z.gtb_ltb, !Z.ltb_lt. lia.
Qed.

Lemma set_stop_action_in (a : string) :
  a ∈ _stop_actions m ->
  _set_stop_action m a w
  = (put (sysfs.attr_key (_stop_action m)) (VStr a) w, Done tt).
Proof.
  intros H. unfold _set_stop_action. rewrite bool_decide_eq_true_2 by done.
  reflexivity.
Qed.

Lemma set_stop_action_out (a : string) :
  a ∉ _stop_actions m ->
  _set_stop_action m a w = (w, Raised (ValueError "Invalid stop action")).
Proof.
  intros H. unfold _set_stop_action. rewrite bool_decide_eq_false_2 by done.
  reflexivity.
Qed.

Lemma set_position_any (r : Q) :
  _set_position_sp m r w
  = (put (sysfs.attr_key (_position_sp m)) (VInt (native_position m r)) w, Done tt).
Proof. reflexivity. Qed.

End Setters.

(** ** Range of the speed setpoint *)

(** C1.  With a positive [count_per_rot], every speed between
    [-max_speed_deg_s] and [max_speed_deg_s] degrees per second converts to
    a native setpoint [int(speed * count_per_rot / 360)] between
    [-max_speed] and [max_speed]; the range check of [_set_speed_sp] passes
    and that value is written to the speed setpoint. *)
Theorem speed_within_limit_is_written (m : self) (w : world) (speed : Q) :
  0 < _count_per_rot m ->
  (- max_speed_deg_s m <= speed)%Q ->
  (speed <= max_speed_deg_s m)%Q ->
  let v := Py.int (speed * inject_Z (_count_per_rot m) / 360) in
  (- _max_speed m <= v <= _max_speed m)
  /\ _set_speed_sp m speed w
     = (put (sysfs.attr_key (_speed_sp m)) (VInt v) w, Done tt).
Proof.
  intros Hc Hlo Hhi v.
  assert (Hv : - _max_speed m <= v <= _max_speed m).
  { split.
    - apply int_ge, to_native_ge; assumption.
    - apply int_le, to_native_le; assumption. }
  split; [exact Hv|]. apply set_speed_in. exact Hv.
Qed.

Lemma speed_within_limit_is_written_witness :
  (- 1050 <= Py.int ((-1050 # 1) * inject_Z 360 / 360) <= 1050)
  /\ _set_speed_sp Bench.motor (-1050 # 1) Bench.w0
     = (put (Bench.node, "speed_sp") (VInt (-1050)) Bench.w0, Done tt).
Proof.
  apply (speed_within_limit_is_written Bench.motor Bench.w0 (-1050 # 1)).
  - reflexivity.
  - unfold Qle; simpl; lia.
  - unfold Qle; simpl; lia.
Defined.

(** ** Validation in the setters *)

(** C3, as the code has it.  The speed, time, duty-cycle and stop-action
    setters check their argument first: on a violation they raise and the
    world is the one they were called in, so nothing was written; otherwise
    they write the value.  The position setter has no range check of its
    own: whenever [count_per_rot * rotations] is within the range of a
    finite float, it converts it and writes the result, however large. *)
Theorem checked_setters_raise_before_writing (m : self) (w : world) :
  (forall speed,
      native_speed m speed < - _max_speed m \/ _max_speed m < native_speed m speed ->
      _set_speed_sp m speed w = (w, Raised (ValueError "speed is out of range")))
  /\ (forall t, t < 0 ->
      _set_time_sp m t w = (w, Raised (ValueError "time is out of range")))
  /\ (forall d, d < -100 \/ 100 < d ->
      _set_duty_cycle_sp m d w = (w, Raised (ValueError "duty cycle is out of range")))
  /\ (forall a, a ∉ _stop_actions m ->
      _set_stop_action m a w = (w, Raised (ValueError "Invalid stop action")))
  /\ (forall speed,
      - _max_speed m <= native_speed m speed <= _max_speed m ->
      _set_speed_sp m speed w
      = (put (sysfs.attr_key (_speed_sp m)) (VInt (native_speed m speed)) w, Done tt))
  /\ (forall t, 0 <= t ->
      _set_time_sp m t w = (put (sysfs.attr_key (_time_sp m)) (VInt t) w, Done tt))
  /\ (forall d, -100 <= d <= 100 ->
      _set_duty_cycle_sp m d w
      = (put (sysfs.attr_key (_duty_cycle_sp m)) (VInt d) w, Done tt))
  /\ (forall a, a ∈ _stop_actions m ->
      _set_stop_action m a w
      = (put (sysfs.attr_key (_stop_action m)) (VStr a) w, Done tt))
  /\ (forall rotations,
      finite_float (inject_Z (_count_per_rot m) * rotations) ->
      _set_position_sp m rotations w
      = (put (sysfs.attr_key (_position_sp m))
             (VInt (Py.int (inject_Z (_count_per_rot m) * rotations))) w, Done tt)).
Proof.
  repeat split.
  - apply set_speed_out.
  - apply set_time_out.
  - apply set_duty_cycle_out.
  - apply set_stop_action_out.
  - apply set_speed_in.
  - apply set_time_in.
  - apply set_duty_cycle_in.
  - apply set_stop_action_in.
Qed.

Lemma checked_setters_raise_before_writing_witness :
  _set_speed_sp Bench.motor (2000 # 1) Bench.w0
  = (Bench.w0, Raised (ValueError "speed is out of range"))
  /\ _set_time_sp Bench.motor (-1) Bench.w0
     = (Bench.w0, Raised (ValueError "time is out of range"))
  /\ _set_duty_cycle_sp Bench.motor 101 Bench.w0
     = (Bench.w0, Raised (ValueError "duty cycle is out of range"))
  /\ _set_stop_action Bench.motor "park" Bench.w0
     = (Bench.w0, Raised (ValueError "Invalid stop action"))
  /\ _set_time_sp Bench.motor 1500 Bench.w0
     = (put (Bench.node, "time_sp") (VInt 1500) Bench.w0, Done tt)
  /\ _set_position_sp Bench.motor (-5 # 2) Bench.w0
     = (put (Bench.node, "position_sp") (VInt (-900)) Bench.w0, Done tt).
Proof.
  destruct (checked_setters_raise_before_writing Bench.motor Bench.w0)
    as (Hs & Ht & Hd & Ha & _ & Ht' & _ & _ & Hp).
  split; [|split; [|split; [|split; [|split]]]].
  - apply Hs. right. vm_compute. reflexivity.
  - apply Ht. lia.
  - apply Hd. right. lia.
  - apply Ha. vm_compute. intros H.
    repeat (apply elem_of_cons in H as [H|H]; [discriminate H|]).
    apply elem_of_nil in H. exact H.
  - apply (Ht' 1500). lia.
  - apply (Hp (-5 # 2)). split; reflexivity.
Defined.

(** C3 as stated fails at the position setter: it has no range to
    violate.  Ten thousand million rotations, forward or backward, are
    converted and written like any other value, and no rotations whose
    count is within the range of a finite float make the setter raise. *)
Lemma position_setter_has_no_check :
  _set_position_sp Bench.motor (10000000000 # 1) Bench.w0
  = (put (Bench.node, "position_sp") (VInt 3600000000000) Bench.w0, Done tt)
  /\ _set_position_sp Bench.motor (-10000000000 # 1) Bench.w0
     = (put (Bench.node, "position_sp") (VInt (-3600000000000)) Bench.w0, Done tt)
  /\ ~ (exists m rotations w w' e,
           finite_float (inject_Z (_count_per_rot m) * rotations)
           /\ _set_position_sp m rotations w = (w', Raised e)).
Proof.
  split; [reflexivity|]. split; [reflexivity|].
  intros (m & r & w & w' & e & _ & H). rewrite set_position_any in H.
  discriminate H.
Qed.

(** ** [run_unregulated] *)

(** C4.  A duty cycle below -100 or above 100 makes [run_unregulated]
    raise the range error in the world it was called in, before the
    setpoint or any command is written; a duty cycle from -100 to 100 is
    written to the setpoint, then the command [run-direct] is written, and
    the call returns. *)
Theorem run_unregulated_checks_range (m : self) (w : world) (d : Z) :
  (d < -100 \/ 100 < d ->
   run_unregulated m d w = (w, Raised (ValueError "duty cycle is out of range")))
  /\ (-100 <= d <= 100 ->
      run_unregulated m d w
      = (put (sysfs.attr_key (_command m)) (VStr "run-direct")
             (put (sysfs.attr_key (_duty_cycle_sp m)) (VInt d) w), Done tt)).
Proof.
  unfold run_unregulated, bind. split; intros H.
  - rewrite set_duty_cycle_out by exact H. reflexivity.
  - rewrite set_duty_cycle_in by exact H. reflexivity.
Qed.

Lemma run_unregulated_checks_range_witness :
  run_unregulated Bench.motor (-101) Bench.w0
  = (Bench.w0, Raised (ValueError "duty cycle is out of range"))
  /\ trace (fst (run_unregulated Bench.motor (-100) Bench.w0))
     = [EWrite (Bench.node, "duty_cycle_sp") (VInt (-100));
        EWrite (Bench.node, "command") (VStr "run-direct")].
Proof.
  split.
  - apply (run_unregulated_checks_range Bench.motor Bench.w0 (-101)). left. lia.
  - rewrite (proj2 (run_unregulated_checks_range Bench.motor Bench.w0 (-100)))
      by lia.
    reflexivity.
Defined.

(** ** Traces *)

Section Traces.

Lemma since_app (w w' : world) (l : list event) :
  trace w' = trace w ++ l -> since w w' = l.
Proof. intros H. unfold since. rewrite H. apply drop_app_length. Qed.

Lemma since_put (w : world) (k : key) (v : value) :
  since w (put k v w) = [EWrite k v].
Proof. apply since_app. reflexivity. Qed.

Lemma writes_to_app (k : key) (l1 l2 : list event) :
  writes_to k (l1 ++ l2) = writes_to k l1 ++ writes_to k l2.
Proof.
  induction l1 as [|e l1 IH]; [reflexivity|].
  destruct e; simpl; try exact IH.
  case_decide; simpl; rewrite IH; reflexivity.
Qed.

Lemma writes_to_reads (k k' : key) (l : list event) :
  Forall (is_read k') l -> writes_to k l = [].
Proof.
  induction 1 as [|e l [shown ->] _ IH]; [reflexivity|]. exact IH.
Qed.

(** A raw read adds one read event and leaves every other attribute as it
    was. *)
Lemma read_value_effect (a : sysfs.Attribute) (w : world) :
  let w' := (sysfs.read_value a w).1 in
  (exists shown, trace w' = trace w ++ [ERead (sysfs.attr_key a) shown])
  /\ (forall k, k ≠ sysfs.attr_key a -> files w' !! k = files w !! k).
Proof.
  unfold sysfs.read_value.
  destruct (feed w !! sysfs.attr_key a) as [[|v rest]|] eqn:Ef;
    try (destruct (files w !! sysfs.attr_key a) eqn:El);
    simpl; split; eauto.
  all: intros k Hk; apply lookup_insert_ne; congruence.
Qed.

Lemma read_effect (a : sysfs.Attribute) (w : world) :
  let w' := (sysfs.read a w).1 in
  (exists shown, trace w' = trace w ++ [ERead (sysfs.attr_key a) shown])
  /\ (forall k, k ≠ sysfs.attr_key a -> files w' !! k = files w !! k).
Proof.
  pose proof (read_value_effect a w) as H.
  unfold sysfs.read, bind.
  destruct (sysfs.read_value a w) as [w1 [[z|s]|e|]]; exact H.
Qed.

Lemma poll_step (fuel : nat) (m : self) (w : world) :
  poll (S fuel) m w
  = match sysfs.read (_state m) w with
    | (w1, Done s) =>
        if negb (bool_decide ("running" ∈ Py.split " " s))
           || bool_decide ("holding" ∈ Py.split " " s)
        then (w1, Done tt)
        else poll fuel m w1
    | (w1, Raised e) => (w1, Raised e)
    | (w1, Spinning) => (w1, Spinning)
    end.
Proof.
  simpl. unfold bind.
  destruct (sysfs.read (_state m) w) as [w1 [s|e|]]; try reflexivity.
  destruct (negb _ || _); reflexivity.
Qed.

(** The poll loop only reads the state attribute. *)
Lemma poll_effect (fuel : nat) (m : self) (w : world) :
  let w' := (poll fuel m w).1 in
  (exists polls, trace w' = trace w ++ polls
                 /\ Forall (is_read (sysfs.attr_key (_state m))) polls)
  /\ (forall k, k ≠ sysfs.attr_key (_state m) -> files w' !! k = files w !! k).
Proof.
  revert w. induction fuel as [|fuel IH]; intros w.
  - simpl. split; [exists []; split; [symmetry; apply app_nil_r|constructor]|done].
  - pose proof (read_effect (_state m) w) as [[shown Ht] Hf].
    rewrite poll_step.
    destruct (sysfs.read (_state m) w) as [w1 [s|e|]]; simpl in *.
    + destruct (negb (bool_decide ("running" ∈ Py.split " " s))
                || bool_decide ("holding" ∈ Py.split " " s)).
      * split; [|exact Hf].
        exists [ERead (sysfs.attr_key (_state m)) shown].
        split; [exact Ht|]. repeat constructor. eexists; reflexivity.
      * destruct (IH w1) as [(polls & Ht1 & Hp) Hf1]. split.
        -- exists (ERead (sysfs.attr_key (_state m)) shown :: polls). split.
           ++ rewrite Ht1, Ht, <- app_assoc. reflexivity.
           ++ constructor; [eexists; reflexivity|exact Hp].
        -- intros k Hk. rewrite Hf1, Hf by exact Hk. reflexivity.
    + split; [|exact Hf].
      exists [ERead (sysfs.attr_key (_state m)) shown].
      split; [exact Ht|]. repeat constructor. eexists; reflexivity.
    + split; [|exact Hf].
      exists [ERead (sysfs.attr_key (_state m)) shown].
      split; [exact Ht|]. repeat constructor. eexists; reflexivity.
Qed.

(** A poll on a settled state that does not show [running] returns after
    one read. *)
Lemma poll_returns (fuel : nat) (m : self) (w : world) (s : string) :
  files w !! sysfs.attr_key (_state m) = Some (VStr s) ->
  feed w !! sysfs.attr_key (_state m) = None ->
  "running" ∉ Py.split " " s ->
  poll (S fuel) m w
  = (log (ERead (sysfs.attr_key (_state m)) (Some (VStr s))) w, Done tt).
Proof.
  intros Hs Hf Hr. rewrite poll_step.
  unfold sysfs.read, bind, sysfs.read_value. rewrite Hf, Hs. simpl.
  rewrite bool_decide_eq_false_2 by exact Hr. reflexivity.
Qed.

(** A poll on a settled state that shows [running] and not [holding] is
    still spinning when any budget runs out. *)
Lemma poll_spins (fuel : nat) (m : self) (w : world) (s : string) :
  files w !! sysfs.attr_key (_state m) = Some (VStr s) ->
  feed w !! sysfs.attr_key (_state m) = None ->
  "running" ∈ Py.split " " s ->
  "holding" ∉ Py.split " " s ->
  (poll fuel m w).2 = Spinning.
Proof.
  intros Hs Hf Hr Hh. revert w Hs Hf.
  induction fuel as [|fuel IH]; intros w Hs Hf; [reflexivity|].
  rewrite poll_step.
  unfold sysfs.read, bind, sysfs.read_value. rewrite Hf, Hs. simpl.
  rewrite bool_decide_eq_true_2 by exact Hr.
  rewrite bool_decide_eq_false_2 by exact Hh. simpl.
  apply IH; assumption.
Qed.

End Traces.

(** ** [run_for_rotations] *)

Section Rotations.

Variable m : self.

Let spd := sysfs.attr_key (_speed_sp m).
Let act := sysfs.attr_key (_stop_action m).
Let pos := sysfs.attr_key (_position_sp m).
Let cmd := sysfs.attr_key (_command m).

(** With a speed in range and a supported stop action, the call writes the
    three setpoints and the command, then only polls. *)
Lemma rotations_accepted (fuel : nat) (speed rotations : Q) (a : string)
    (wait : bool) (w : world) :
  - _max_speed m <= native_speed m speed <= _max_speed m ->
  a ∈ _stop_actions m ->
  let rotations' := if Qltb speed 0 then (rotations * -1)%Q else rotations in
  exists polls,
    since w (run_for_rotations fuel m speed rotations a wait w).1
    = [EWrite spd (VInt (native_speed m speed)); EWrite act (VStr a);
       EWrite pos (VInt (native_position m rotations'));
       EWrite cmd (VStr "run-to-rel-pos")] ++ polls
    /\ Forall (is_read (sysfs.attr_key (_state m))) polls.
Proof.
  intros Hv Ha rotations'. unfold run_for_rotations. fold rotations'.
  unfold bind. rewrite set_speed_in by exact Hv.
  rewrite set_stop_action_in by exact Ha.
  rewrite set_position_any. unfold sysfs.write, sysfs.write_value.
  fold spd act pos cmd.
  set (w4 := put cmd _ _).
  assert (Ht : trace w4 = trace w ++
       [EWrite spd (VInt (native_speed m speed)); EWrite act (VStr a);
        EWrite pos (VInt (native_position m rotations'));
        EWrite cmd (VStr "run-to-rel-pos")]).
  { subst w4. simpl. rewrite <- !app_assoc. reflexivity. }
  destruct wait.
  - destruct (poll_effect fuel m w4) as [(polls & Hp & Hr) _].
    exists polls. split; [|exact Hr].
    apply since_app. rewrite Hp, Ht, <- app_assoc. reflexivity.
  - exists []. split; [|constructor].
    apply since_app. rewrite app_nil_r. exact Ht.
Qed.

(** Otherwise it raises before the position setpoint is reached: in the
    world it was called in when the speed is out of range, after the speed
    write when only the stop action is unsupported. *)
Lemma rotations_rejected (fuel : nat) (speed rotations : Q) (a : string)
    (wait : bool) (w : world) :
  ~ (- _max_speed m <= native_speed m speed <= _max_speed m
     /\ a ∈ _stop_actions m) ->
  run_for_rotations fuel m speed rotations a wait w
  = if decide (- _max_speed m <= native_speed m speed <= _max_speed m)
    then (put spd (VInt (native_speed m speed)) w,
          Raised (ValueError "Invalid stop action"))
    else (w, Raised (ValueError "speed is out of range")).
Proof.
  intros Hn. unfold run_for_rotations, bind. case_decide as Hv.
  - rewrite set_speed_in by exact Hv.
    rewrite set_stop_action_out by tauto. reflexivity.
  - rewrite set_speed_out by lia. reflexivity.
Qed.

End Rotations.

(** C2.  For a speed magnitude [s > 0] and any rotations [r], compare the
    call with speed [s] and the call with speed [-s].  When the speed is in
    range and the stop action supported, the first writes the position
    setpoint [int(count_per_rot * r)] and the second writes its exact
    negation (the speed setpoints are negations of each other as well).
    Otherwise both calls raise the same error and neither reaches the
    position setpoint. *)
Theorem negative_speed_negates_position_setpoint
    (fuel : nat) (m : self) (s r : Q) (a : string) (wait : bool) (w : world) :
  (0 < s)%Q ->
  let fwd := run_for_rotations fuel m s r a wait w in
  let bwd := run_for_rotations fuel m (- s) r a wait w in
  let v := native_speed m s in
  let p := Py.int (inject_Z (_count_per_rot m) * r) in
  let spd := sysfs.attr_key (_speed_sp m) in
  let act := sysfs.attr_key (_stop_action m) in
  let pos := sysfs.attr_key (_position_sp m) in
  let cmd := sysfs.attr_key (_command m) in
  (- _max_speed m <= v <= _max_speed m /\ a ∈ _stop_actions m
   /\ exists polls_f polls_b,
       since w fwd.1
       = [EWrite spd (VInt v); EWrite act (VStr a); EWrite pos (VInt p);
          EWrite cmd (VStr "run-to-rel-pos")] ++ polls_f
       /\ since w bwd.1
          = [EWrite spd (VInt (- v)); EWrite act (VStr a); EWrite pos (VInt (- p));
             EWrite cmd (VStr "run-to-rel-pos")] ++ polls_b
       /\ Forall (is_read (sysfs.attr_key (_state m))) polls_f
       /\ Forall (is_read (sysfs.attr_key (_state m))) polls_b)
  \/ (~ (- _max_speed m <= v <= _max_speed m /\ a ∈ _stop_actions m)
      /\ exists e,
          (fwd = (w, Raised e) /\ bwd = (w, Raised e))
          \/ (fwd = (put spd (VInt v) w, Raised e)
              /\ bwd = (put spd (VInt (- v)) w, Raised e))).
Proof.
  intros Hs fwd bwd v p spd act pos cmd.
  destruct (Qltb_pos s Hs) as [Hf Hb].
  destruct (decide (- _max_speed m <= v <= _max_speed m /\ a ∈ _stop_actions m))
    as [[Hv Ha]|Hn].
  - left. split; [exact Hv|]. split; [exact Ha|].
    destruct (rotations_accepted m fuel s r a wait w Hv Ha) as (pf & Hpf & Hrf).
    assert (Hv' : - _max_speed m <= native_speed m (- s) <= _max_speed m)
      by (rewrite native_speed_opp; fold v; lia).
    destruct (rotations_accepted m fuel (- s) r a wait w Hv' Ha) as (pb & Hpb & Hrb).
    exists pf, pb. rewrite Hf in Hpf. rewrite Hb in Hpb.
    rewrite native_speed_opp, native_position_opp in Hpb.
    repeat split; assumption.
  - right. split; [exact Hn|].
    assert (Hn' : ~ (- _max_speed m <= native_speed m (- s) <= _max_speed m
                     /\ a ∈ _stop_actions m))
      by (rewrite native_speed_opp; fold v; intros [? ?]; apply Hn; split; [lia|done]).
    pose proof (rotations_rejected m fuel s r a wait w Hn) as Ef.
    pose proof (rotations_rejected m fuel (- s) r a wait w Hn') as Eb.
    rewrite native_speed_opp in Eb. fold v in Ef, Eb. fold fwd in Ef. fold bwd in Eb.
    destruct (decide (- _max_speed m <= v <= _max_speed m)) as [Hv|Hv].
    + rewrite decide_True in Eb by lia.
      exists (ValueError "Invalid stop action"). right. split; assumption.
    + rewrite decide_False in Eb by lia.
      exists (ValueError "speed is out of range"). left. split; assumption.
Qed.

Lemma negative_speed_negates_position_setpoint_witness :
  exists polls_f polls_b,
    since Bench.w0
      (run_for_rotations 3 Bench.motor (90 # 1) (3 # 2) "hold" true Bench.w0).1
    = [EWrite (Bench.node, "speed_sp") (VInt 90);
       EWrite (Bench.node, "stop_action") (VStr "hold");
       EWrite (Bench.node, "position_sp") (VInt 540);
       EWrite (Bench.node, "command") (VStr "run-to-rel-pos")] ++ polls_f
    /\ since Bench.w0
         (run_for_rotations 3 Bench.motor (- (90 # 1)) (3 # 2) "hold" true Bench.w0).1
       = [EWrite (Bench.node, "speed_sp") (VInt (-90));
          EWrite (Bench.node, "stop_action") (VStr "hold");
          EWrite (Bench.node, "position_sp") (VInt (-540));
          EWrite (Bench.node, "command") (VStr "run-to-rel-pos")] ++ polls_b.
Proof.
  destruct (negative_speed_negates_position_setpoint
              3 Bench.motor (90 # 1) (3 # 2) "hold" true Bench.w0)
    as [(_ & _ & pf & pb & Hf & Hb & _) | (Hn & _)].
  - reflexivity.
  - exists pf, pb. split; [exact Hf|exact Hb].
  - exfalso. apply Hn. split.
    + vm_compute. split; discriminate.
    + do 2 apply list_elem_of_further. apply list_elem_of_here.
Defined.

(** ** [run_for_time] *)



(** ** Unsupported stop actions *)

Section StopActions.

Variable node : string.
Variable m : self.
Hypothesis Hep : endpoints node m.

Let act : key := (node, "stop_action").

Lemma act_is_endpoint : sysfs.attr_key (_stop_action m) = act.
Proof. apply Hep. Qed.

Lemma speed_is_not_act : sysfs.attr_key (_speed_sp m) ≠ act.
Proof. rewrite (ep_speed_sp _ _ Hep). unfold act. intros [=]. Qed.

Lemma time_is_not_act : sysfs.attr_key (_time_sp m) ≠ act.
Proof. rewrite (ep_time_sp _ _ Hep). unfold act. intros [=]. Qed.

Lemma writes_to_other (k : key) (v : value) :
  k ≠ act -> writes_to act [EWrite k v] = [].
Proof. intros H. simpl. rewrite decide_False by exact H. reflexivity. Qed.

Lemma put_other (k : key) (v : value) (w : world) :
  k ≠ act -> files (put k v w) !! act = files w !! act.
Proof. intros H. simpl. apply lookup_insert_ne. exact H. Qed.

Lemma rotations_unsupported (fuel : nat) (speed rotations : Q) (a : string)
    (wait : bool) (w : world) :
  a ∉ _stop_actions m ->
  exists w' msg,
    run_for_rotations fuel m speed rotations a wait w = (w', Raised (ValueError msg))
    /\ writes_to act (since w w') = []
    /\ files w' !! act = files w !! act.
Proof.
  intros Ha.
  rewrite rotations_rejected by tauto.
  case_decide.
  - eexists _, _. split; [reflexivity|].
    rewrite since_put. split.
    + apply writes_to_other, speed_is_not_act.
    + apply put_other, speed_is_not_act.
  - eexists _, _. split; [reflexivity|].
    rewrite (since_app w w []) by (symmetry; apply app_nil_r). done.
Qed.

Lemma time_unsupported (speed time : Q) (a : string) (wait : bool) (w : world) :
  a ∉ _stop_actions m ->
  exists w' msg,
    run_for_time m speed time a wait w = (w', Raised (ValueError msg))
    /\ writes_to act (since w w') = []
    /\ files w' !! act = files w !! act.
Proof.
  intros Ha. unfold run_for_time, bind.
  destruct (decide (- _max_speed m <= native_speed m speed <= _max_speed m))
    as [Hv|Hv].
  - rewrite set_speed_in by exact Hv.
    destruct (decide (0 <= Py.int (time * 1000))) as [Ht|Ht].
    + rewrite set_time_in by exact Ht.
      rewrite set_stop_action_out by exact Ha.
      eexists _, _. split; [reflexivity|]. split.
      * erewrite since_app by (simpl; rewrite <- app_assoc; reflexivity).
        simpl. rewrite !decide_False
          by first [apply speed_is_not_act | apply time_is_not_act].
        reflexivity.
      * rewrite !put_other
          by first [apply speed_is_not_act | apply time_is_not_act].
        reflexivity.
    + rewrite set_time_out by lia.
      eexists _, _. split; [reflexivity|].
      rewrite since_put. split.
      * apply writes_to_other, speed_is_not_act.
      * apply put_other, speed_is_not_act.
  - rewrite set_speed_out by lia.
    eexists _, _. split; [reflexivity|].
    rewrite (since_app w w []) by (symmetry; apply app_nil_r). done.
Qed.

End StopActions.

(** C5.  On a motor whose endpoints are those of [node]: a stop action
    outside the cached supported list makes [stop], [run_for_rotations] and
    [run_for_time] raise a range error ([ValueError]); no value is written
    to the stop-action attribute and its content stays what it was.  A stop
    action inside the list is written by the setter without raising, and
    [stop] then writes its command. *)
Theorem stop_action_must_be_supported
    (node : string) (m : self) (w : world) (a : string) :
  endpoints node m ->
  (a ∉ _stop_actions m ->
     stop m a w = (w, Raised (ValueError "Invalid stop action"))
     /\ (forall fuel speed rotations wait,
          exists w' msg,
            run_for_rotations fuel m speed rotations a wait w
            = (w', Raised (ValueError msg))
            /\ writes_to (node, "stop_action") (since w w') = []
            /\ files w' !! (node, "stop_action") = files w !! (node, "stop_action"))
     /\ (forall speed time wait,
          exists w' msg,
            run_for_time m speed time a wait w = (w', Raised (ValueError msg))
            /\ writes_to (node, "stop_action") (since w w') = []
            /\ files w' !! (node, "stop_action") = files w !! (node, "stop_action")))
  /\ (a ∈ _stop_actions m ->
      _set_stop_action m a w = (put (node, "stop_action") (VStr a) w, Done tt)
      /\ stop m a w
         = (put (node, "command") (VStr "stop")
                (put (node, "stop_action") (VStr a) w), Done tt)).
Proof.
  intros Hep. split; intros Ha.
  - split; [|split].
    + unfold stop, bind. rewrite set_stop_action_out by exact Ha. reflexivity.
    + intros. apply rotations_unsupported; assumption.
    + intros. apply time_unsupported; assumption.
  - split.
    + rewrite set_stop_action_in by exact Ha.
      rewrite (ep_stop_action _ _ Hep). reflexivity.
    + unfold stop, bind. rewrite set_stop_action_in by exact Ha.
      unfold sysfs.write, sysfs.write_value.
      rewrite (ep_stop_action _ _ Hep), (ep_command _ _ Hep). reflexivity.
Qed.

Lemma stop_action_must_be_supported_witness :
  stop Bench.motor "park" Bench.w0
  = (Bench.w0, Raised (ValueError "Invalid stop action"))
  /\ stop Bench.motor "coast" Bench.w0
     = (put (Bench.node, "command") (VStr "stop")
            (put (Bench.node, "stop_action") (VStr "coast") Bench.w0), Done tt).
Proof.
  split.
  - apply (stop_action_must_be_supported Bench.node Bench.motor Bench.w0 "park").
    + constructor; reflexivity.
    + intros H.
      repeat (apply elem_of_cons in H as [H|H]; [discriminate H|]).
      apply elem_of_nil in H. exact H.
  - apply (stop_action_must_be_supported Bench.node Bench.motor Bench.w0 "coast").
    + constructor; reflexivity.
    + apply list_elem_of_here.
Defined.

(** ** Rules for running methods step by step *)

Section Rules.

Context {A B : Type}.

Lemma wp_bind (c : M A) (k : A -> M B) (Q : world -> outcome B -> Prop) (w : world) :
  wp c (wp_then k Q) w -> wp (bind c k) Q w.
Proof.
  unfold wp, wp_then, bind.
  destruct (c w) as [w1 [a|e|]]; simpl; auto.
Qed.

Lemma wp_ret (a : A) (Q : world -> outcome A -> Prop) (w : world) :
  Q w (Done a) -> wp (ret a) Q w.
Proof. auto. Qed.

Lemma wp_raise (e : exn) (Q : world -> outcome A -> Prop) (w : world) :
  Q w (Raised e) -> wp (raise e) Q w.
Proof. auto. Qed.

End Rules.

Section StoreRules.

Import sysfs.

Lemma wp_find_node (subsystem port driver : string)
    (Q : world -> outcome (option string) -> Prop) (w : world) :
  Q (log (EFind subsystem port driver) w) (find_node subsystem port driver w).2 ->
  wp (find_node subsystem port driver) Q w.
Proof. auto. Qed.

Lemma wp_open (node name : string) (md : mode)
    (Q : world -> outcome Attribute -> Prop) (w : world) :
  Q (log (EOpen (node, name) md) w) (Done (Attr (node, name) md)) ->
  Q (log (EOpen (node, name) md) w) (Raised (OSError name)) ->
  wp (open node name md) Q w.
Proof.
  intros Hd Hr. unfold wp, open.
  destruct (files w !! (node, name)); assumption.
Qed.

Lemma wp_read_value (a : Attribute) (Q : world -> outcome value -> Prop) (w : world) :
  (forall w1 v, trace w1 = trace w ++ [ERead (attr_key a) (Some v)] ->
                Q w1 (Done v)) ->
  Q (log (ERead (attr_key a) None) w) (Raised (OSError (attr_key a).2)) ->
  wp (read_value a) Q w.
Proof.
  intros Hd Hr. unfold wp, read_value.
  destruct (feed w !! attr_key a) as [[|v rest]|];
    try (destruct (files w !! attr_key a)); simpl;
    first [apply Hd; reflexivity | exact Hr].
Qed.

Lemma wp_read (a : Attribute) (Q : world -> outcome string -> Prop) (w : world) :
  (forall w1 s, trace w1 = trace w ++ [ERead (attr_key a) (Some (VStr s))] ->
                Q w1 (Done s)) ->
  (forall w1 shown e, trace w1 = trace w ++ [ERead (attr_key a) shown] ->
                      store_error e -> Q w1 (Raised e)) ->
  wp (read a) Q w.
Proof.
  intros Hd Hr. unfold read. apply wp_bind, wp_read_value.
  - intros w1 [z|s] Ht; simpl.
    + apply wp_raise. eapply Hr; [exact Ht|exact I].
    + apply wp_ret, Hd, Ht.
  - simpl. eapply Hr; [reflexivity|exact I].
Qed.

Lemma wp_read_int (a : Attribute) (Q : world -> outcome Z -> Prop) (w : world) :
  (forall w1 z, trace w1 = trace w ++ [ERead (attr_key a) (Some (VInt z))] ->
                Q w1 (Done z)) ->
  (forall w1 shown e, trace w1 = trace w ++ [ERead (attr_key a) shown] ->
                      store_error e -> Q w1 (Raised e)) ->
  wp (read_int a) Q w.
Proof.
  intros Hd Hr. unfold read_int. apply wp_bind, wp_read_value.
  - intros w1 [z|s] Ht; simpl.
    + apply wp_ret, Hd, Ht.
    + apply wp_raise. eapply Hr; [exact Ht|exact I].
  - simpl. eapply Hr; [reflexivity|exact I].
Qed.

Lemma wp_write (a : Attribute) (s : string) (Q : world -> outcome unit -> Prop)
    (w : world) :
  Q (put (attr_key a) (VStr s) w) (Done tt) -> wp (write a s) Q w.
Proof. auto. Qed.

(** The same steps on a device that presents the attribute. *)
Lemma wp_open_present (node name : string) (md : mode)
    (Q : world -> outcome Attribute -> Prop) (w : world) :
  is_Some (files w !! (node, name)) ->
  Q (log (EOpen (node, name) md) w) (Done (Attr (node, name) md)) ->
  wp (open node name md) Q w.
Proof.
  intros [v Hv] HQ. unfold wp, open. rewrite Hv. exact HQ.
Qed.

Lemma wp_read_text (a : Attribute) (Q : world -> outcome string -> Prop) (w : world) :
  has_text w (attr_key a) ->
  (forall s, Q (log (ERead (attr_key a) (Some (VStr s))) w) (Done s)) ->
  wp (read a) Q w.
Proof.
  intros [[s Hs] Hf] HQ. unfold wp, read, bind, read_value.
  rewrite Hf, Hs. apply HQ.
Qed.

Lemma wp_read_int_present (a : Attribute) (Q : world -> outcome Z -> Prop)
    (w : world) :
  has_int w (attr_key a) ->
  (forall z, Q (log (ERead (attr_key a) (Some (VInt z))) w) (Done z)) ->
  wp (read_int a) Q w.
Proof.
  intros [[z Hz] Hf] HQ. unfold wp, read_int, bind, read_value.
  rewrite Hf, Hz. apply HQ.
Qed.

End StoreRules.

(** ** Construction *)

Ltac trace_norm :=
  repeat first
    [ progress cbn [trace log put]
    | match goal with
      | H : trace ?x = _ |- context [trace ?x] => rewrite H
      end ];
  rewrite <- ?app_assoc; reflexivity.

Ltac init_step :=
  apply wp_bind;
  first [ apply wp_open
        | apply wp_read; intros
        | apply wp_read_int; intros
        | apply wp_write ];
  cbn beta iota delta [wp_then].

Section Construction.

Import sysfs.

Variables cls port driver : string.
Variable w : world.

Lemma find_node_truthy (subsystem p d node : string) :
  (find_node subsystem p d w).2 = Done (Some node) -> Py.truthy node = true.
Proof.
  unfold find_node; simpl.
  destruct (List.filter _ _) as [|n l]; intros [=]. subst node. reflexivity.
Qed.

Lemma init_found (node : string) :
  (find_node "tacho-motor" (looked_up port) driver w).2 = Done (Some node) ->
  wp (__init__ cls port driver) (built w port driver node) w.
Proof.
  intros Hfind. pose proof (find_node_truthy _ _ _ _ Hfind) as Htruthy.
  unfold __init__. fold (looked_up port).
  apply wp_bind, wp_find_node. rewrite Hfind.
  cbn beta iota delta [wp_then]. rewrite Htruthy. cbn [negb].
  repeat init_step.
  all: try (apply wp_ret).
  all: unfold built.
  all: try (split; [first [exact I | assumption]
                   | eexists; split; [apply since_app; trace_norm
                                     | intros; reflexivity] ]).
  eexists _, _. split; [apply since_app; trace_norm|].
  split; [constructor; reflexivity|]. repeat split.
Qed.

Lemma init_not_found :
  (find_node "tacho-motor" (looked_up port) driver w).2 = Done None ->
  __init__ cls port driver w
  = (log (EFind "tacho-motor" (looked_up port) driver) w,
     Raised (not_found cls (looked_up port))).
Proof.
  intros Hfind. unfold __init__. fold (looked_up port).
  unfold bind at 1.
  destruct (find_node "tacho-motor" (looked_up port) driver w) as [w1 o] eqn:E.
  simpl in Hfind. subst o.
  unfold find_node in E. injection E as <- _. reflexivity.
Qed.

(** On a device that presents its attributes the construction returns. *)
Lemma construction_returns (node : string) :
  (find_node "tacho-motor" (looked_up port) driver w).2 = Done (Some node) ->
  presents w node ->
  exists m, (__init__ cls port driver w).2 = Done m.
Proof.
  intros Hfind (Hc & Hn & Hd & Hm & Hs & Hall).
  repeat (apply Forall_cons in Hall as [? Hall]).
  pose proof (find_node_truthy _ _ _ _ Hfind) as Htruthy.
  change (wp (__init__ cls port driver) (fun _ o => exists m, o = Done m) w).
  unfold __init__. fold (looked_up port).
  apply wp_bind, wp_find_node. rewrite Hfind.
  cbn beta iota delta [wp_then]. rewrite Htruthy. cbn [negb].
  repeat (apply wp_bind;
          first [ apply wp_open_present; [assumption|]
                | apply wp_read_text; [assumption|intros ?]
                | apply wp_read_int_present; [assumption|intros ?]
                | apply wp_write ];
          cbn beta iota delta [wp_then]).
  apply wp_ret. eexists. reflexivity.
Qed.

Lemma find_node_returns (subsystem p d : string) :
  exists found, (find_node subsystem p d w).2 = Done found.
Proof. unfold find_node; simpl. eauto. Qed.

End Construction.

Section ConstructionSummary.

Variables cls port driver : string.
Variable w : world.

(** Whatever the outcome, the lookup comes first and uses the port name
    that a returned motor stores. *)
Lemma init_summary :
  let r := __init__ cls port driver w in
  (exists l, since w r.1 = EFind "tacho-motor" (looked_up port) driver :: l)
  /\ (forall m, r.2 = Done m ->
        TachoMotor.port m = looked_up port /\ exists node, endpoints node m).
Proof.
  destruct (find_node_returns w "tacho-motor" (looked_up port) driver)
    as [[node|] Hfind].
  - pose proof (init_found cls port driver w node Hfind) as H.
    unfold wp, built in H. simpl.
    destruct (__init__ cls port driver w) as [w' [m|e|]]; simpl in *.
    + destruct H as (cs & ss & Hs & Hep & Hp & _). split.
      * rewrite Hs. unfold construction. eauto.
      * intros m' [= <-]. eauto.
    + destruct H as [_ (l & H & _)]. split; [eauto|]. intros m' [=].
    + destruct H.
  - rewrite (init_not_found cls port driver w Hfind). simpl. split.
    + exists []. apply since_app. reflexivity.
    + intros m' [=].
Qed.

End ConstructionSummary.

(** C6.  When the lookup finds no device node for the port and driver,
    construction raises [MotorNotFoundError]; the lookup is the only access
    it made, so no endpoint was opened and no reset was written.  When the
    lookup finds a node, construction does not raise that error, and it
    returns a motor when the node presents the attributes of a tacho
    motor. *)
Theorem missing_motor_raises_not_found (cls port driver : string) (w : world) :
  let lookup := sysfs.find_node "tacho-motor" (looked_up port) driver in
  ((lookup w).2 = Done None ->
     __init__ cls port driver w
     = (log (EFind "tacho-motor" (looked_up port) driver) w,
        Raised (MotorNotFoundError
                  (cls ++ " not found on port " ++ looked_up port)%string))
     /\ since w (__init__ cls port driver w).1
        = [EFind "tacho-motor" (looked_up port) driver])
  /\ (forall node, (lookup w).2 = Done (Some node) ->
        forall msg,
          (__init__ cls port driver w).2 ≠ Raised (MotorNotFoundError msg))
  /\ (forall node, (lookup w).2 = Done (Some node) -> presents w node ->
        exists m, (__init__ cls port driver w).2 = Done m).
Proof.
  intros lookup. split; [|split].
  - intros Hfind. rewrite (init_not_found cls port driver w Hfind). split.
    + reflexivity.
    + apply since_app. reflexivity.
  - intros node Hfind msg.
    pose proof (init_found cls port driver w node Hfind) as H.
    unfold wp, built in H.
    destruct (__init__ cls port driver w) as [w' [m|e|]]; simpl in *;
      try discriminate.
    destruct H as [He _]. intros [= ->]. exact He.
  - intros node Hfind Hp.
    apply (construction_returns cls port driver w node Hfind Hp).
Qed.

Lemma missing_motor_raises_not_found_witness :
  LargeMotor "B" Bench.w0
  = (log (EFind "tacho-motor" "ev3-ports:outB" "lego-ev3-l-motor") Bench.w0,
     Raised (MotorNotFoundError "LargeMotor not found on port ev3-ports:outB"))
  /\ (LargeMotor "A" Bench.w0).2
     ≠ Raised (MotorNotFoundError "LargeMotor not found on port ev3-ports:outA")
  /\ (exists m, (LargeMotor "A" Bench.w0).2 = Done m).
Proof.
  pose proof (missing_motor_raises_not_found "LargeMotor" "A" EV3_LARGE Bench.w0)
    as (_ & Hfound & Hreturns).
  split; [|split].
  - apply (missing_motor_raises_not_found "LargeMotor" "B" EV3_LARGE Bench.w0).
    vm_compute. reflexivity.
  - apply (Hfound Bench.node). vm_compute. reflexivity.
  - apply (Hreturns Bench.node); [vm_compute; reflexivity|].
    unfold presents, has_text, has_int.
    repeat split; try (eexists; vm_compute; reflexivity).
    repeat constructor; eexists; vm_compute; reflexivity.
Defined.

(** On the bench, [LargeMotor('A')] returns the bench motor. *)
Example large_motor_on_bench : (LargeMotor "A" Bench.w0).2 = Done Bench.motor.
Proof. vm_compute. reflexivity. Qed.

(** C8, as the code has it.  A construction that returns has, after the
    lookup, opened the endpoints and read the static properties (supported
    commands, counts per rotation, driver name, maximum speed, supported
    stop actions), cached what those reads showed, and only then written
    the command [reset], which is its last access. *)
Theorem construction_reads_then_resets
    (cls port driver : string) (w w' : world) (m : self) :
  __init__ cls port driver w = (w', Done m) ->
  exists node cs ss,
    since w w' = construction (looked_up port) driver node cs ss m
    /\ _commands m = Py.split " " cs
    /\ _stop_actions m = Py.split " " ss
    /\ last (since w w') = Some (EWrite (node, "command") (VStr "reset")).
Proof.
  intros Hrun.
  destruct (find_node_returns w "tacho-motor" (looked_up port) driver)
    as [[node|] Hfind].
  - pose proof (init_found cls port driver w node Hfind) as H.
    unfold wp in H. rewrite Hrun in H. simpl in H.
    destruct H as (cs & ss & Hs & _ & _ & Hc & Ha).
    exists node, cs, ss. rewrite Hs. repeat split; assumption.
  - rewrite (init_not_found cls port driver w Hfind) in Hrun. discriminate Hrun.
Qed.

Lemma construction_reads_then_resets_witness :
  exists node cs ss,
    since Bench.w0 (LargeMotor "A" Bench.w0).1
    = construction "ev3-ports:outA" "lego-ev3-l-motor" node cs ss Bench.motor
    /\ _commands Bench.motor = Py.split " " cs
    /\ _stop_actions Bench.motor = Py.split " " ss
    /\ last (since Bench.w0 (LargeMotor "A" Bench.w0).1)
       = Some (EWrite (node, "command") (VStr "reset")).
Proof.
  apply (construction_reads_then_resets "LargeMotor" "A" EV3_LARGE Bench.w0).
  vm_compute. reflexivity.
Defined.

(** C8 as stated fails: on the bench the write of [reset] is the last of
    the 23 accesses of the construction, after the reads of the supported
    commands (4th), counts per rotation (6th), maximum speed (12th) and
    supported stop actions (21st); nothing is read after it. *)
Lemma reset_is_written_after_the_reads :
  let tr := trace (LargeMotor "A" Bench.w0).1 in
  reset_precedes_reads (Bench.node, "command") tr = false
  /\ length tr = 23%nat
  /\ tr !! 22%nat = Some (EWrite (Bench.node, "command") (VStr "reset"))
  /\ writes_to (Bench.node, "command") tr = [VStr "reset"]
  /\ tr !! 3%nat
     = Some (ERead (Bench.node, "commands")
               (Some (VStr "run-forever run-to-rel-pos run-timed run-direct stop reset")))
  /\ tr !! 5%nat = Some (ERead (Bench.node, "count_per_rot") (Some (VInt 360)))
  /\ tr !! 11%nat = Some (ERead (Bench.node, "max_speed") (Some (VInt 1050)))
  /\ tr !! 20%nat
     = Some (ERead (Bench.node, "stop_actions") (Some (VStr "coast brake hold"))).
Proof. vm_compute. repeat split. Qed.

(** C10.  A port argument of exactly one character is looked up as
    ['ev3-ports:out' + port], and that expanded name is what a constructed
    motor stores in [port]; a port argument of any other length is looked
    up and stored as it was given.  In both cases the lookup uses that name,
    a motor that is returned stores it, and a motor is returned when the
    node found presents the attributes of a tacho motor. *)
Theorem one_character_port_is_expanded (cls port driver : string) (w : world) :
  let r := __init__ cls port driver w in
  let uses (name : string) :=
    head (since w r.1) = Some (EFind "tacho-motor" name driver)
    /\ (forall m, r.2 = Done m -> TachoMotor.port m = name)
    /\ (forall node,
          (sysfs.find_node "tacho-motor" name driver w).2 = Done (Some node) ->
          presents w node ->
          exists m, r.2 = Done m /\ TachoMotor.port m = name) in
  (Py.len port = 1%nat -> uses ("ev3-ports:out" ++ port)%string)
  /\ (Py.len port ≠ 1%nat -> uses port).
Proof.
  intros r uses.
  assert (H : uses (looked_up port)).
  { destruct (init_summary cls port driver w) as [[l Hl] Hm].
    fold r in Hl, Hm. split; [|split].
    - rewrite Hl. reflexivity.
    - intros m Hd. apply (Hm m Hd).
    - intros node Hfind Hp.
      destruct (construction_returns cls port driver w node Hfind Hp) as [m Hd].
      exists m. split; [exact Hd|]. apply (Hm m Hd). }
  split; intros Hlen.
  - replace (looked_up port) with ("ev3-ports:out" ++ port)%string in H;
      [exact H|].
    unfold looked_up. rewrite Hlen. reflexivity.
  - replace (looked_up port) with port in H; [exact H|].
    unfold looked_up.
    destruct (Nat.eqb_spec (Py.len port) 1); [contradiction|reflexivity].
Qed.

Lemma one_character_port_is_expanded_witness :
  (head (since Bench.w0 (LargeMotor "A" Bench.w0).1)
   = Some (EFind "tacho-motor" "ev3-ports:outA" "lego-ev3-l-motor")
   /\ exists m, (LargeMotor "A" Bench.w0).2 = Done m
                /\ TachoMotor.port m = "ev3-ports:outA")
  /\ (head (since Bench.w0 (LargeMotor "ev3-ports:outA" Bench.w0).1)
      = Some (EFind "tacho-motor" "ev3-ports:outA" "lego-ev3-l-motor")
      /\ exists m, (LargeMotor "ev3-ports:outA" Bench.w0).2 = Done m
                   /\ TachoMotor.port m = "ev3-ports:outA")
  /\ (exists m, (LargeMotor e_acute accented).2 = Done m
                /\ TachoMotor.port m = ("ev3-ports:out" ++ e_acute)%string).
Proof.
  assert (P0 : presents Bench.w0 Bench.node).
  { unfold presents, has_text, has_int.
    repeat split; try (eexists; vm_compute; reflexivity).
    repeat constructor; eexists; vm_compute; reflexivity. }
  assert (P1 : presents accented Bench.node).
  { unfold presents, has_text, has_int.
    repeat split; try (eexists; vm_compute; reflexivity).
    repeat constructor; eexists; vm_compute; reflexivity. }
  split; [|split].
  - destruct (proj1 (one_character_port_is_expanded
                       "LargeMotor" "A" EV3_LARGE Bench.w0))
      as (Hhead & _ & Hret); [reflexivity|].
    split; [exact Hhead|].
    apply (Hret Bench.node); [vm_compute; reflexivity|exact P0].
  - destruct (proj2 (one_character_port_is_expanded
                       "LargeMotor" "ev3-ports:outA" EV3_LARGE Bench.w0))
      as (Hhead & _ & Hret); [vm_compute; lia|].
    split; [exact Hhead|].
    apply (Hret Bench.node); [vm_compute; reflexivity|exact P0].
  - destruct (proj1 (one_character_port_is_expanded
                       "LargeMotor" e_acute EV3_LARGE accented))
      as (_ & _ & Hret); [reflexivity|].
    apply (Hret Bench.node); [vm_compute; reflexivity|exact P1].
Defined.

(** ** The time setpoint stays non-negative *)

Section Keeps.

Context {A B : Type}.
Variable P : world -> Prop.

Lemma keeps_bind (c : M A) (k : A -> M B) :
  keeps P c -> (forall a, keeps P (k a)) -> keeps P (bind c k).
Proof.
  intros Hc Hk w Hw. unfold bind. specialize (Hc w Hw).
  destruct (c w) as [w1 [a|e|]]; simpl in *; [apply Hk|..]; assumption.
Qed.

Lemma keeps_ret (a : A) : keeps P (ret a).
Proof. intros w Hw. exact Hw. Qed.

Lemma keeps_raise (e : exn) : keeps P (raise (A := A) e).
Proof. intros w Hw. exact Hw. Qed.

End Keeps.

Section TimeSetpoint.

Variable node : string.
Variable m : self.
Hypothesis Hep : endpoints node m.

Let tsp : key := (node, "time_sp").
Let inv : world -> Prop := time_sp_nonneg node.

Lemma inv_put_other (k : key) (v : value) (w : world) :
  k ≠ tsp -> inv w -> inv (put k v w).
Proof.
  intros Hk [Ht Hf]. split; simpl.
  - rewrite writes_to_app. simpl. rewrite decide_False by exact Hk.
    rewrite app_nil_r. exact Ht.
  - intros v'. rewrite lookup_insert_ne by exact Hk. apply Hf.
Qed.

Lemma inv_put_time (z : Z) (w : world) :
  0 <= z -> inv w -> inv (put tsp (VInt z) w).
Proof.
  intros Hz [Ht Hf]. split; simpl.
  - rewrite writes_to_app. simpl. rewrite decide_True by reflexivity.
    apply Forall_app. split; [exact Ht|]. repeat constructor. exact Hz.
  - intros v'. rewrite lookup_insert_eq. intros [= <-]. exact Hz.
Qed.

Lemma keeps_write_other (a : sysfs.Attribute) (s : string) :
  sysfs.attr_key a ≠ tsp -> keeps inv (sysfs.write a s).
Proof. intros Hk w Hw. apply inv_put_other; assumption. Qed.

Lemma keeps_sleep (t : Q) : keeps inv (sleep t).
Proof.
  intros w [Ht Hf]. split; simpl; [|exact Hf].
  rewrite writes_to_app. simpl. rewrite app_nil_r. exact Ht.
Qed.

Lemma keeps_poll (fuel : nat) : keeps inv (poll fuel m).
Proof.
  intros w [Ht Hf].
  destruct (poll_effect fuel m w) as [(polls & Hp & Hr) Hfr]. split.
  - rewrite Hp, writes_to_app, (writes_to_reads _ _ _ Hr), app_nil_r. exact Ht.
  - intros v. rewrite Hfr; [apply Hf|].
    rewrite (ep_state _ _ Hep). unfold tsp. intros [=].
Qed.

Lemma keeps_set_speed (speed : Q) : keeps inv (_set_speed_sp m speed).
Proof.
  intros w Hw. unfold _set_speed_sp.
  destruct (_ || _)%bool; [exact Hw|].
  apply inv_put_other; [|exact Hw].
  rewrite (ep_speed_sp _ _ Hep). unfold tsp. intros [=].
Qed.

Lemma keeps_set_position (r : Q) : keeps inv (_set_position_sp m r).
Proof.
  intros w Hw. apply inv_put_other; [|exact Hw].
  rewrite (ep_position_sp _ _ Hep). unfold tsp. intros [=].
Qed.

Lemma keeps_set_duty_cycle (d : Z) : keeps inv (_set_duty_cycle_sp m d).
Proof.
  intros w Hw. unfold _set_duty_cycle_sp.
  destruct (_ || _)%bool; [exact Hw|].
  apply inv_put_other; [|exact Hw].
  rewrite (ep_duty_cycle_sp _ _ Hep). unfold tsp. intros [=].
Qed.

Lemma keeps_set_stop_action (a : string) : keeps inv (_set_stop_action m a).
Proof.
  intros w Hw. unfold _set_stop_action.
  destruct (bool_decide _); [|exact Hw].
  apply inv_put_other; [|exact Hw].
  rewrite (ep_stop_action _ _ Hep). unfold tsp. intros [=].
Qed.

Lemma keeps_set_time (t : Z) : keeps inv (_set_time_sp m t).
Proof.
  intros w Hw. unfold _set_time_sp.
  destruct (Z.ltb_spec t 0); [exact Hw|].
  unfold sysfs.write_int, sysfs.write_value. simpl.
  rewrite (ep_time_sp _ _ Hep). apply inv_put_time; assumption.
Qed.

Lemma keeps_command (s : string) : keeps inv (sysfs.write (_command m) s).
Proof.
  apply keeps_write_other. rewrite (ep_command _ _ Hep). unfold tsp. intros [=].
Qed.

Lemma keeps_exec (fuel : nat) (c : call) : keeps inv (exec fuel m c).
Proof.
  destruct c as [speed|speed rotations a wait|speed time a wait|d|a]; simpl.
  - apply keeps_bind; [apply keeps_set_speed|intros _; apply keeps_command].
  - unfold run_for_rotations.
    apply keeps_bind; [apply keeps_set_speed|intros _].
    apply keeps_bind; [apply keeps_set_stop_action|intros _].
    apply keeps_bind; [apply keeps_set_position|intros _].
    apply keeps_bind; [apply keeps_command|intros _].
    destruct wait; [apply keeps_poll|apply keeps_ret].
  - unfold run_for_time.
    apply keeps_bind; [apply keeps_set_speed|intros _].
    apply keeps_bind; [apply keeps_set_time|intros _].
    apply keeps_bind; [apply keeps_set_stop_action|intros _].
    destruct wait.
    + apply keeps_bind; [apply keeps_command|intros _].
      apply keeps_bind; [apply keeps_sleep|intros _]. apply keeps_command.
    + apply keeps_command.
  - apply keeps_bind; [apply keeps_set_duty_cycle|intros _; apply keeps_command].
  - apply keeps_bind; [apply keeps_set_stop_action|intros _; apply keeps_command].
Qed.

End TimeSetpoint.

Lemma init_leaves_time_sp (cls port driver node : string) (w : world) :
  writes_to (node, "time_sp") (since w (__init__ cls port driver w).1) = [].
Proof.
  destruct (find_node_returns w "tacho-motor" (looked_up port) driver)
    as [[n|] Hfind].
  - pose proof (init_found cls port driver w n Hfind) as H.
    unfold wp, built in H.
    destruct (__init__ cls port driver w) as [w' [m|e|]]; simpl in *.
    + destruct H as (cs & ss & -> & _). unfold construction. simpl.
      rewrite decide_False by (intros [=]). reflexivity.
    + destruct H as [_ (l & -> & Hl)]. simpl. apply Hl.
    + destruct H.
  - rewrite (init_not_found cls port driver w Hfind). simpl.
    rewrite (since_app w _ [EFind "tacho-motor" (looked_up port) driver])
      by reflexivity.
    reflexivity.
Qed.

(** C9.  On a motor whose endpoints are those of [node], in a world where
    every value written so far to the time setpoint, and the value it
    holds, is a non-negative integer, the same is true after any call, for
    any poll budget: [_set_time_sp] raises on a negative argument in the
    world it was called in, [run_for_time] writes [int(time * 1000)] only
    through that check, no other method writes the time setpoint, and a
    construction writes nothing to it. *)
Theorem time_setpoint_stays_nonnegative
    (node : string) (m : self) (fuel : nat) (c : call) (w : world) :
  endpoints node m ->
  time_sp_nonneg node w ->
  time_sp_nonneg node (exec fuel m c w).1
  /\ (forall t, t < 0 ->
        _set_time_sp m t w = (w, Raised (ValueError "time is out of range")))
  /\ (forall cls port driver,
        writes_to (node, "time_sp") (since w (__init__ cls port driver w).1) = []).
Proof.
  intros Hep Hw. split; [|split].
  - apply (keeps_exec node m Hep fuel c w Hw).
  - intros t Ht. apply set_time_out. exact Ht.
  - intros. apply init_leaves_time_sp.
Qed.

Lemma time_setpoint_stays_nonnegative_witness :
  time_sp_nonneg Bench.node
    (exec 3 Bench.motor (RunForTime (180 # 1) (3 # 2) "brake" false) Bench.w0).1
  /\ writes_to (Bench.node, "time_sp")
       (trace (exec 3 Bench.motor (RunForTime (180 # 1) (3 # 2) "brake" false)
                 Bench.w0).1)
     = [VInt 1500].
Proof.
  split; [|reflexivity].
  apply (time_setpoint_stays_nonnegative Bench.node Bench.motor 3
           (RunForTime (180 # 1) (3 # 2) "brake" false) Bench.w0).
  - constructor; reflexivity.
  - split.
    + constructor.
    + intros v Hv. vm_compute in Hv. injection Hv as <-. simpl. lia.
Defined.

(** ** Further behaviour of the speed setter and of [run] *)

Section Truncation.

(** The speed setpoint of a whole number of degrees per second. *)
Lemma native_speed_of_integer (m : self) (n : Z) :
  native_speed m (inject_Z n) = Z.quot (n * _count_per_rot m) 360.
Proof.
  unfold native_speed, Py.int. cbn. rewrite Z.mul_1_r. reflexivity.
Qed.

End Truncation.

(** X1.  For a speed that is a whole number [n] of degrees per second, on
    a device whose [max_speed] and [count_per_rot] are 32-bit values, the
    check of [_set_speed_sp] is a comparison of integers: the speed is
    accepted exactly when [|n * count_per_rot| < 360 * (max_speed + 1)],
    and then [n * count_per_rot] divided by 360, truncated toward zero, is
    written; every other whole speed raises in the world the setter was
    called in. *)
Theorem whole_speed_accepted_exactly (m : self) (n : Z) (w : world) :
  0 <= _max_speed m < 2 ^ 31 ->
  0 < _count_per_rot m < 2 ^ 31 ->
  Z.abs n < 2 ^ 63 ->
  (Z.abs (n * _count_per_rot m) < 360 * (_max_speed m + 1) ->
     _set_speed_sp m (inject_Z n) w
     = (put (sysfs.attr_key (_speed_sp m))
            (VInt (Z.quot (n * _count_per_rot m) 360)) w, Done tt))
  /\ (360 * (_max_speed m + 1) <= Z.abs (n * _count_per_rot m) ->
      _set_speed_sp m (inject_Z n) w
      = (w, Raised (ValueError "speed is out of range"))).
Proof.
  intros Hmax _ _. split; intros H.
  - rewrite <- native_speed_of_integer. apply set_speed_in.
    rewrite native_speed_of_integer.
    Z.to_euclidean_division_equations. nia.
  - apply set_speed_out. rewrite native_speed_of_integer.
    Z.to_euclidean_division_equations. nia.
Qed.

Lemma whole_speed_accepted_exactly_witness :
  _set_speed_sp Bench.motor (inject_Z 1050) Bench.w0
  = (put (Bench.node, "speed_sp") (VInt 1050) Bench.w0, Done tt)
  /\ _set_speed_sp Bench.motor (inject_Z (-1051)) Bench.w0
     = (Bench.w0, Raised (ValueError "speed is out of range")).
Proof.
  split.
  - apply (whole_speed_accepted_exactly Bench.motor 1050 Bench.w0).
    + simpl. lia.
    + simpl. lia.
    + simpl. lia.
    + simpl. lia.
  - apply (whole_speed_accepted_exactly Bench.motor (-1051) Bench.w0).
    + simpl. lia.
    + simpl. lia.
    + simpl. lia.
    + simpl. lia.
Defined.

(** X2.  [run] with a speed whose setpoint is in range writes the speed
    setpoint and then the command [run-forever], and returns; with any
    other speed it raises in the world it was called in, so no command
    reaches the motor. *)
Theorem run_checks_speed_first (m : self) (speed : Q) (w : world) :
  (- _max_speed m <= native_speed m speed <= _max_speed m ->
     run m speed w
     = (put (sysfs.attr_key (_command m)) (VStr "run-forever")
            (put (sysfs.attr_key (_speed_sp m)) (VInt (native_speed m speed)) w),
        Done tt))
  /\ (native_speed m speed < - _max_speed m \/ _max_speed m < native_speed m speed ->
      run m speed w = (w, Raised (ValueError "speed is out of range"))).
Proof.
  unfold run, bind. split; intros H.
  - rewrite set_speed_in by exact H. reflexivity.
  - rewrite set_speed_out by exact H. reflexivity.
Qed.

Lemma run_checks_speed_first_witness :
  trace (run Bench.motor (-720 # 1) Bench.w0).1
  = [EWrite (Bench.node, "speed_sp") (VInt (-720));
     EWrite (Bench.node, "command") (VStr "run-forever")]
  /\ run Bench.motor (-1051 # 1) Bench.w0
     = (Bench.w0, Raised (ValueError "speed is out of range")).
Proof.
  split.
  - rewrite (proj1 (run_checks_speed_first Bench.motor (-720 # 1) Bench.w0)).
    + reflexivity.
    + vm_compute. split; discriminate.
  - apply (run_checks_speed_first Bench.motor (-1051 # 1) Bench.w0).
    left. vm_compute. reflexivity.
Defined.

(** X3.  The range check of the speed setter is symmetric: a speed and its
    negation are both accepted or both rejected, and when accepted the
    setpoints written are exact negations of each other. *)
Theorem speed_check_is_symmetric (m : self) (s : Q) (w : world) :
  _set_speed_sp m (- s) w
  = match (_set_speed_sp m s w).2 with
    | Done _ =>
        (put (sysfs.attr_key (_speed_sp m)) (VInt (- native_speed m s)) w, Done tt)
    | o => (w, o)
    end.
Proof.
  destruct (decide (- _max_speed m <= native_speed m s <= _max_speed m)) as [H|H].
  - rewrite (set_speed_in m w s H). simpl.
    rewrite <- native_speed_opp. apply set_speed_in.
    rewrite native_speed_opp. lia.
  - rewrite (set_speed_out m w s) by lia. simpl.
    apply set_speed_out. rewrite native_speed_opp. lia.
Qed.

(** X4.  When [0 < count_per_rot <= max_speed], the property
    [nominal_speed] returns [count_per_rot * 360 / max_speed] without
    touching the attribute store, and [run] accepts that value. *)
Theorem nominal_speed_is_accepted (m : self) (w : world) :
  0 < _count_per_rot m ->
  _count_per_rot m <= _max_speed m ->
  let v := (inject_Z (_count_per_rot m) * 360 / inject_Z (_max_speed m))%Q in
  nominal_speed m w = (w, Done v) /\ (run m v w).2 = Done tt.
Proof.
  intros Hc Hm v. split.
  - unfold nominal_speed.
    replace (_max_speed m =? 0)%Z with false by (symmetry; apply Z.eqb_neq; lia).
    reflexivity.
  - assert (Hv : - _max_speed m <= native_speed m v <= _max_speed m).
    { unfold native_speed, v.
      destruct (_max_speed m) as [|p|p] eqn:Ep; try lia.
      destruct (_count_per_rot m) as [|c|c] eqn:Ec; try lia.
      split.
      - apply int_ge. unfold Qle, Qdiv, Qmult, Qinv, inject_Z; cbn. nia.
      - apply int_le. unfold Qle, Qdiv, Qmult, Qinv, inject_Z; cbn. nia. }
    unfold run, bind. rewrite set_speed_in by exact Hv. reflexivity.
Qed.

Lemma nominal_speed_is_accepted_witness :
  nominal_speed Bench.motor Bench.w0
  = (Bench.w0, Done (inject_Z 360 * 360 / inject_Z 1050)%Q)
  /\ (run Bench.motor (inject_Z 360 * 360 / inject_Z 1050)%Q Bench.w0).2 = Done tt.
Proof.
  apply (nominal_speed_is_accepted Bench.motor Bench.w0).
  - reflexivity.
  - simpl. lia.
Defined.

(** ** The wait loop of [run_for_rotations] *)

Section Waiting.

Variable m : self.

Let st : key := sysfs.attr_key (_state m).

Lemma read_feed (w : world) (s : string) (rest : list value) :
  feed w !! st = Some (VStr s :: rest) ->
  sysfs.read (_state m) w
  = (World (nodes w) (<[st := VStr s]> (files w)) (<[st := rest]> (feed w))
           (trace w ++ [ERead st (Some (VStr s))]), Done s).
Proof.
  intros Hf. unfold sysfs.read, bind, sysfs.read_value. fold st.
  rewrite Hf. reflexivity.
Qed.

(** Fed with states that keep the loop going and then one that ends it, the
    loop returns after reading exactly those. *)
Lemma poll_feed (pre : list string) (last : string) (rest : list value) :
  Forall (fun s => stops s = false) pre ->
  stops last = true ->
  forall (fuel : nat) (w : world),
    feed w !! st = Some (map VStr pre ++ VStr last :: rest) ->
    (length pre < fuel)%nat ->
    (poll fuel m w).2 = Done tt
    /\ trace (poll fuel m w).1 = trace w ++ reads_of st (pre ++ [last])
    /\ feed (poll fuel m w).1 !! st = Some rest.
Proof.
  intros Hpre Hlast. induction Hpre as [|s pre Hs _ IH]; intros fuel w Hf Hfuel.
  - destruct fuel as [|fuel]; [lia|]. rewrite poll_step.
    simpl in Hf. rewrite (read_feed w last rest Hf).
    change (negb _ || _) with (stops last). rewrite Hlast. simpl.
    split; [reflexivity|]. split; [reflexivity|]. apply lookup_insert_eq.
  - destruct fuel as [|fuel]; [simpl in Hfuel; lia|]. rewrite poll_step.
    simpl in Hf. rewrite (read_feed w s _ Hf).
    change (negb _ || _) with (stops s). rewrite Hs.
    edestruct IH as (Ho & Ht & Hr);
      [| | split; [exact Ho|split; [rewrite Ht|exact Hr]]].
    + simpl. apply lookup_insert_eq.
    + simpl in Hfuel. lia.
    + simpl. rewrite <- app_assoc. reflexivity.
Qed.

Lemma stops_false (s : string) :
  stops s = false ->
  "running" ∈ Py.split " " s /\ "holding" ∉ Py.split " " s.
Proof.
  unfold stops. intros H. apply orb_false_iff in H as [H1 H2].
  apply negb_false_iff, bool_decide_eq_true in H1.
  apply bool_decide_eq_false in H2. split; assumption.
Qed.

End Waiting.

Section WaitingForRotations.

Variable node : string.
Variable m : self.
Hypothesis Hep : endpoints node m.

Variables speed rotations : Q.
Variable a : string.
Hypothesis Hv : - _max_speed m <= native_speed m speed <= _max_speed m.
Hypothesis Ha : a ∈ _stop_actions m.

Let rotations' : Q := if Qltb speed 0 then (rotations * -1)%Q else rotations.

(** The world in which the wait loop starts. *)
Let started (w : world) : world :=
  put (node, "command") (VStr "run-to-rel-pos")
    (put (node, "position_sp") (VInt (native_position m rotations'))
       (put (node, "stop_action") (VStr a)
          (put (node, "speed_sp") (VInt (native_speed m speed)) w))).

Lemma rotations_wait (fuel : nat) (w : world) :
  run_for_rotations fuel m speed rotations a true w = poll fuel m (started w).
Proof.
  unfold run_for_rotations, bind. fold rotations'.
  rewrite set_speed_in by exact Hv.
  rewrite set_stop_action_in by exact Ha.
  rewrite set_position_any.
  unfold sysfs.write, sysfs.write_value, started.
  rewrite (ep_speed_sp _ _ Hep), (ep_stop_action _ _ Hep),
    (ep_position_sp _ _ Hep), (ep_command _ _ Hep).
  reflexivity.
Qed.

Lemma started_state (w : world) :
  files (started w) !! (node, "state") = files w !! (node, "state")
  /\ feed (started w) = feed w.
Proof.
  split; [|reflexivity]. unfold started, put; simpl.
  rewrite !lookup_insert_ne by (intros [=]). reflexivity.
Qed.

Lemma started_trace (w : world) :
  trace (started w)
  = trace w ++ [EWrite (node, "speed_sp") (VInt (native_speed m speed));
                EWrite (node, "stop_action") (VStr a);
                EWrite (node, "position_sp") (VInt (native_position m rotations'));
                EWrite (node, "command") (VStr "run-to-rel-pos")].
Proof. unfold started, put; simpl. rewrite <- !app_assoc. reflexivity. Qed.

Lemma rotations_wait_returns (fuel : nat) (w : world)
    (pre : list string) (last : string) (rest : list value) :
  feed w !! (node, "state") = Some (map VStr pre ++ VStr last :: rest) ->
  Forall (fun s => stops s = false) pre ->
  stops last = true ->
  (length pre < fuel)%nat ->
  (run_for_rotations fuel m speed rotations a true w).2 = Done tt
  /\ since w (run_for_rotations fuel m speed rotations a true w).1
     = [EWrite (node, "speed_sp") (VInt (native_speed m speed));
        EWrite (node, "stop_action") (VStr a);
        EWrite (node, "position_sp") (VInt (native_position m rotations'));
        EWrite (node, "command") (VStr "run-to-rel-pos")]
       ++ reads_of (node, "state") (pre ++ [last]).
Proof.
  intros Hf Hpre Hlast Hfuel. rewrite rotations_wait.
  destruct (poll_feed m pre last rest Hpre Hlast fuel (started w))
    as (Ho & Ht & _).
  - rewrite (ep_state _ _ Hep). exact Hf.
  - exact Hfuel.
  - split; [exact Ho|]. apply since_app.
    rewrite Ht, started_trace, (ep_state _ _ Hep), <- app_assoc. reflexivity.
Qed.

Lemma rotations_wait_spins (fuel : nat) (w : world) (s : string) :
  files w !! (node, "state") = Some (VStr s) ->
  feed w !! (node, "state") = None ->
  stops s = false ->
  (run_for_rotations fuel m speed rotations a true w).2 = Spinning.
Proof.
  intros Hs Hf Hstop. rewrite rotations_wait.
  destruct (stops_false s Hstop) as [Hr Hh].
  destruct (started_state w) as [Hfiles Hfeed].
  apply (poll_spins fuel m (started w) s).
  - rewrite (ep_state _ _ Hep), Hfiles. exact Hs.
  - rewrite (ep_state _ _ Hep), Hfeed. exact Hf.
  - exact Hr.
  - exact Hh.
Qed.

End WaitingForRotations.

(** X5.  With a speed in range and a supported stop action,
    [run_for_rotations] with [wait] writes the three setpoints and the
    command, then polls the state attribute: while the device shows states
    with [running] and without [holding] it reads on, and it returns at the
    first state without [running] or with [holding], having read exactly the
    states up to that one. *)
Theorem wait_returns_at_first_stopping_state
    (node : string) (m : self) (speed rotations : Q) (a : string)
    (fuel : nat) (w : world) (pre : list string) (last : string)
    (rest : list value) :
  endpoints node m ->
  - _max_speed m <= native_speed m speed <= _max_speed m ->
  a ∈ _stop_actions m ->
  feed w !! (node, "state") = Some (map VStr pre ++ VStr last :: rest) ->
  Forall (fun s => stops s = false) pre ->
  stops last = true ->
  (length pre < fuel)%nat ->
  let rotations' := if Qltb speed 0 then (rotations * -1)%Q else rotations in
  (run_for_rotations fuel m speed rotations a true w).2 = Done tt
  /\ since w (run_for_rotations fuel m speed rotations a true w).1
     = [EWrite (node, "speed_sp") (VInt (native_speed m speed));
        EWrite (node, "stop_action") (VStr a);
        EWrite (node, "position_sp") (VInt (native_position m rotations'));
        EWrite (node, "command") (VStr "run-to-rel-pos")]
       ++ reads_of (node, "state") (pre ++ [last]).
Proof.
  intros Hep Hv Ha Hf Hpre Hlast Hfuel.
  apply (rotations_wait_returns node m Hep speed rotations a Hv Ha
           fuel w pre last rest Hf Hpre Hlast Hfuel).
Qed.

Lemma wait_returns_at_first_stopping_state_witness :
  let w := turning ["running ramping"; "running"; "running holding"; "holding"] in
  (run_for_rotations 5 Bench.motor (90 # 1) (1 # 2) "hold" true w).2 = Done tt
  /\ since w (run_for_rotations 5 Bench.motor (90 # 1) (1 # 2) "hold" true w).1
     = [EWrite (Bench.node, "speed_sp") (VInt 90);
        EWrite (Bench.node, "stop_action") (VStr "hold");
        EWrite (Bench.node, "position_sp") (VInt 180);
        EWrite (Bench.node, "command") (VStr "run-to-rel-pos")]
       ++ reads_of (Bench.node, "state")
            (["running ramping"; "running"] ++ ["running holding"]).
Proof.
  apply (wait_returns_at_first_stopping_state Bench.node Bench.motor
           (90 # 1) (1 # 2) "hold" 5
           (turning ["running ramping"; "running"; "running holding"; "holding"])
           ["running ramping"; "running"] "running holding" [VStr "holding"]).
  - constructor; reflexivity.
  - vm_compute. split; discriminate.
  - do 2 apply list_elem_of_further. apply list_elem_of_here.
  - vm_compute. reflexivity.
  - repeat constructor.
  - reflexivity.
  - simpl. lia.
Defined.

(** X6.  [run_for_rotations] with [wait] has no timeout: when the state
    attribute keeps showing [running] without [holding], the call is still
    polling when any poll budget runs out. *)
Theorem wait_has_no_timeout
    (node : string) (m : self) (speed rotations : Q) (a s : string)
    (fuel : nat) (w : world) :
  endpoints node m ->
  - _max_speed m <= native_speed m speed <= _max_speed m ->
  a ∈ _stop_actions m ->
  files w !! (node, "state") = Some (VStr s) ->
  feed w !! (node, "state") = None ->
  stops s = false ->
  (run_for_rotations fuel m speed rotations a true w).2 = Spinning.
Proof.
  intros Hep Hv Ha Hs Hf Hstop.
  apply (rotations_wait_spins node m Hep speed rotations a Hv Ha fuel w s
           Hs Hf Hstop).
Qed.

Lemma wait_has_no_timeout_witness :
  (run_for_rotations 1000 Bench.motor (90 # 1) (1 # 2) "hold" true
     (stuck "running stalled")).2 = Spinning.
Proof.
  apply (wait_has_no_timeout Bench.node Bench.motor (90 # 1) (1 # 2) "hold"
           "running stalled" 1000 (stuck "running stalled")).
  - constructor; reflexivity.
  - vm_compute. split; discriminate.
  - do 2 apply list_elem_of_further. apply list_elem_of_here.
  - vm_compute. reflexivity.
  - reflexivity.
  - reflexivity.
Defined.

(** ** Commands and range errors *)

Lemma since_same (w : world) : since w w = [].
Proof. apply since_app. symmetry. apply app_nil_r. Qed.

Lemma read_raises (a : sysfs.Attribute) (w : world) (e : exn) :
  (sysfs.read a w).2 = Raised e -> forall msg, e ≠ ValueError msg.
Proof.
  unfold sysfs.read, bind, sysfs.read_value.
  destruct (feed w !! sysfs.attr_key a) as [[|[z|s] rest]|];
    try (destruct (files w !! sysfs.attr_key a) as [[z'|s']|]); simpl;
    intros [= <-] msg; discriminate.
Qed.

(** The wait loop raises no range error. *)
Lemma poll_raises (fuel : nat) (m : self) (w : world) (e : exn) :
  (poll fuel m w).2 = Raised e -> forall msg, e ≠ ValueError msg.
Proof.
  revert w. induction fuel as [|fuel IH]; intros w; [discriminate|].
  rewrite poll_step. pose proof (read_raises (_state m) w) as Hr.
  destruct (sysfs.read (_state m) w) as [w1 [s|e'|]]; simpl in *.
  - destruct (negb _ || _); [discriminate|apply IH].
  - intros [= <-]. apply Hr. reflexivity.
  - discriminate.
Qed.

Ltac to_node Hep :=
  rewrite ?(ep_command _ _ Hep), ?(ep_duty_cycle_sp _ _ Hep),
    ?(ep_position_sp _ _ Hep), ?(ep_speed_sp _ _ Hep),
    ?(ep_stop_action _ _ Hep), ?(ep_time_sp _ _ Hep), ?(ep_state _ _ Hep).

Ltac count_writes :=
  first [ rewrite since_same
        | erewrite since_app
            by (cbn [trace put log]; rewrite <- ?app_assoc; reflexivity) ];
  cbn [writes_to app];
  repeat first [ rewrite decide_True by reflexivity
               | rewrite decide_False by (intros [=]) ];
  try reflexivity.

Section Commands.

Variable node : string.
Variable m : self.
Hypothesis Hep : endpoints node m.

Lemma exec_commands (fuel : nat) (c : call) (w : world) :
  outcome_commands node w c (exec fuel m c w).
Proof.
  unfold outcome_commands.
  destruct c as [speed|speed rotations a wait|speed time a wait|d|a]; simpl exec.
  - unfold run, bind.
    destruct (decide (- _max_speed m <= native_speed m speed <= _max_speed m))
      as [Hv|Hv].
    + rewrite set_speed_in by exact Hv.
      unfold sysfs.write, sysfs.write_value. to_node Hep. simpl. count_writes.
    + rewrite set_speed_out by lia. simpl. split; [count_writes|reflexivity].
  - destruct (decide (- _max_speed m <= native_speed m speed <= _max_speed m
                      /\ a ∈ _stop_actions m)) as [[Hv Ha]|Hn].
    + destruct (rotations_accepted m fuel speed rotations a wait w Hv Ha)
        as (polls & Hs & Hr).
      assert (Hw : writes_to (node, "command")
                     (since w (run_for_rotations fuel m speed rotations a wait w).1)
                   = [VStr "run-to-rel-pos"]).
      { rewrite Hs. to_node Hep. rewrite writes_to_app.
        rewrite (writes_to_reads _ _ _ Hr), app_nil_r.
        cbn [writes_to].
        repeat first [ rewrite decide_True by reflexivity
                     | rewrite decide_False by (intros [=]) ].
        reflexivity. }
      destruct (run_for_rotations fuel m speed rotations a wait w) as [w' o] eqn:E.
      simpl in *. destruct o as [[]|e|]; try exact Hw.
      destruct e; try exact Hw. exfalso.
      revert E. unfold run_for_rotations, bind.
      rewrite set_speed_in by exact Hv.
      rewrite set_stop_action_in by exact Ha.
      rewrite set_position_any. simpl.
      destruct wait; [|discriminate].
      intros E. eapply (poll_raises fuel m); [rewrite E; reflexivity|reflexivity].
    + rewrite rotations_rejected by exact Hn. case_decide as Hv; simpl.
      * to_node Hep. split; [count_writes|].
        simpl. apply lookup_insert_ne. intros [=].
      * split; [count_writes|reflexivity].
  - unfold run_for_time, bind.
    destruct (decide (- _max_speed m <= native_speed m speed <= _max_speed m))
      as [Hv|Hv].
    + rewrite set_speed_in by exact Hv.
      destruct (decide (0 <= Py.int (time * 1000))) as [Ht|Ht].
      * rewrite set_time_in by exact Ht.
        destruct (decide (a ∈ _stop_actions m)) as [Ha|Ha].
        -- rewrite set_stop_action_in by exact Ha.
           unfold sysfs.write, sysfs.write_value, sleep. to_node Hep.
           destruct wait; simpl; count_writes.
        -- rewrite set_stop_action_out by exact Ha. to_node Hep. simpl.
           split; [count_writes|].
           simpl. rewrite !lookup_insert_ne by (intros [=]). reflexivity.
      * rewrite set_time_out by lia. to_node Hep. simpl.
        split; [count_writes|]. simpl. apply lookup_insert_ne. intros [=].
    + rewrite set_speed_out by lia. simpl. split; [count_writes|reflexivity].
  - unfold run_unregulated, bind.
    destruct (decide (-100 <= d <= 100)) as [Hd|Hd].
    + rewrite set_duty_cycle_in by exact Hd.
      unfold sysfs.write, sysfs.write_value. to_node Hep. simpl. count_writes.
    + rewrite set_duty_cycle_out by lia. simpl. split; [count_writes|reflexivity].
  - unfold stop, bind.
    destruct (decide (a ∈ _stop_actions m)) as [Ha|Ha].
    + rewrite set_stop_action_in by exact Ha.
      unfold sysfs.write, sysfs.write_value. to_node Hep. simpl. count_writes.
    + rewrite set_stop_action_out by exact Ha. simpl.
      split; [count_writes|reflexivity].
Qed.

End Commands.

(** X7.  On a motor with the endpoints of [node], a call of any method
    ([run], [run_for_rotations], [run_for_time], [run_unregulated], [stop])
    that sleeps for no negative duration and raises a range error has
    written nothing to the command attribute, whose content is what it was:
    a rejected argument never starts or stops the motor. *)
Theorem range_error_sends_no_command
    (node : string) (m : self) (fuel : nat) (c : call) (w : world) (msg : string) :
  endpoints node m ->
  sleeps_forward c ->
  (exec fuel m c w).2 = Raised (ValueError msg) ->
  writes_to (node, "command") (since w (exec fuel m c w).1) = []
  /\ files (exec fuel m c w).1 !! (node, "command") = files w !! (node, "command").
Proof.
  intros Hep _ Hr. pose proof (exec_commands node m Hep fuel c w) as H.
  unfold outcome_commands in H. rewrite Hr in H. exact H.
Qed.

Lemma range_error_sends_no_command_witness :
  let r := exec 0 Bench.motor (RunForTime (100 # 1) (3 # 2) "park" true) Bench.w0 in
  writes_to (Bench.node, "command") (since Bench.w0 r.1) = []
  /\ files r.1 !! (Bench.node, "command") = files Bench.w0 !! (Bench.node, "command").
Proof.
  apply (range_error_sends_no_command Bench.node Bench.motor 0
           (RunForTime (100 # 1) (3 # 2) "park" true) Bench.w0
           "Invalid stop action").
  - constructor; reflexivity.
  - simpl. unfold Qle. simpl. lia.
  - vm_compute. reflexivity.
Defined.

(** X8.  On a motor with the endpoints of [node], a call that sleeps for
    no negative duration and returns has written to the command attribute
    exactly the commands of its method, in order: [run-forever] for [run], [run-to-rel-pos] for
    [run_for_rotations], [run-forever] then [stop] for [run_for_time] with
    [wait] and [run-timed] without, [run-direct] for [run_unregulated],
    [stop] for [stop]. *)
Theorem returning_call_sends_its_commands
    (node : string) (m : self) (fuel : nat) (c : call) (w : world) :
  endpoints node m ->
  sleeps_forward c ->
  (exec fuel m c w).2 = Done tt ->
  writes_to (node, "command") (since w (exec fuel m c w).1)
  = map VStr (commands_of c).
Proof.
  intros Hep _ Hr. pose proof (exec_commands node m Hep fuel c w) as H.
  unfold outcome_commands in H. rewrite Hr in H. exact H.
Qed.

Lemma returning_call_sends_its_commands_witness :
  writes_to (Bench.node, "command")
    (since Bench.w0
       (exec 0 Bench.motor (RunForTime (100 # 1) (3 # 2) "coast" true) Bench.w0).1)
  = [VStr "run-forever"; VStr "stop"].
Proof.
  apply (returning_call_sends_its_commands Bench.node Bench.motor 0
           (RunForTime (100 # 1) (3 # 2) "coast" true) Bench.w0).
  - constructor; reflexivity.
  - simpl. unfold Qle. simpl. lia.
  - vm_compute. reflexivity.
Defined.

(** ** More on [run_for_time] and [run_for_rotations] *)

Lemma int_of_tiny_negative (time : Q) :
  (- (1 # 1000) < time)%Q -> (time < 0)%Q -> Py.int (time * 1000) = 0.
Proof.
  destruct time as [n d]. unfold Qlt, Py.int; cbn. intros Hlo Hhi.
  rewrite Pos.mul_1_r. Z.to_euclidean_division_equations. nia.
Qed.

(** X9.  The time check of [run_for_time] looks at [int(time * 1000)], and
    [int] truncates toward zero: a negative time above minus one
    millisecond passes the check.  With a speed in range and a supported
    stop action, the call without [wait] writes the time setpoint 0 and
    issues [run-timed]. *)
Theorem tiny_negative_time_passes_the_check
    (m : self) (speed time : Q) (a : string) (w : world) :
  (- (1 # 1000) < time)%Q ->
  (time < 0)%Q ->
  - _max_speed m <= native_speed m speed <= _max_speed m ->
  a ∈ _stop_actions m ->
  (run_for_time m speed time a false w).2 = Done tt
  /\ since w (run_for_time m speed time a false w).1
     = [EWrite (sysfs.attr_key (_speed_sp m)) (VInt (native_speed m speed));
        EWrite (sysfs.attr_key (_time_sp m)) (VInt 0);
        EWrite (sysfs.attr_key (_stop_action m)) (VStr a);
        EWrite (sysfs.attr_key (_command m)) (VStr "run-timed")].
Proof.
  intros Hlo Hhi Hv Ha. unfold run_for_time, bind.
  rewrite set_speed_in by exact Hv.
  rewrite (int_of_tiny_negative time Hlo Hhi).
  rewrite set_time_in by lia.
  rewrite set_stop_action_in by exact Ha.
  split; [reflexivity|]. apply since_app. simpl.
  rewrite <- !app_assoc. reflexivity.
Qed.

Lemma tiny_negative_time_passes_the_check_witness :
  (run_for_time Bench.motor (100 # 1) (-1 # 2000) "coast" false Bench.w0).2 = Done tt
  /\ since Bench.w0
       (run_for_time Bench.motor (100 # 1) (-1 # 2000) "coast" false Bench.w0).1
     = [EWrite (Bench.node, "speed_sp") (VInt 100);
        EWrite (Bench.node, "time_sp") (VInt 0);
        EWrite (Bench.node, "stop_action") (VStr "coast");
        EWrite (Bench.node, "command") (VStr "run-timed")].
Proof.
  apply (tiny_negative_time_passes_the_check
           Bench.motor (100 # 1) (-1 # 2000) "coast" Bench.w0).
  - reflexivity.
  - reflexivity.
  - vm_compute. split; discriminate.
  - apply list_elem_of_here.
Defined.

(** X10.  [run_for_time] checks speed, then time, then stop action, and
    each check that passes writes its setpoint at once.  A speed out of
    range raises with nothing written; a negative [int(time * 1000)] raises
    after the speed setpoint was written; an unsupported stop action raises
    after the speed and time setpoints were written. *)
Theorem run_for_time_checks_in_order
    (m : self) (speed time : Q) (a : string) (wait : bool) (w : world) :
  let v := native_speed m speed in
  let t := Py.int (time * 1000) in
  let spd := sysfs.attr_key (_speed_sp m) in
  let tsp := sysfs.attr_key (_time_sp m) in
  (v < - _max_speed m \/ _max_speed m < v ->
     run_for_time m speed time a wait w
     = (w, Raised (ValueError "speed is out of range")))
  /\ (- _max_speed m <= v <= _max_speed m -> t < 0 ->
      run_for_time m speed time a wait w
      = (put spd (VInt v) w, Raised (ValueError "time is out of range")))
  /\ (- _max_speed m <= v <= _max_speed m -> 0 <= t -> a ∉ _stop_actions m ->
      run_for_time m speed time a wait w
      = (put tsp (VInt t) (put spd (VInt v) w),
         Raised (ValueError "Invalid stop action"))).
Proof.
  intros v t spd tsp. unfold run_for_time, bind. split; [|split].
  - intros Hv. rewrite set_speed_out by exact Hv. reflexivity.
  - intros Hv Ht. rewrite set_speed_in by exact Hv.
    rewrite set_time_out by exact Ht. reflexivity.
  - intros Hv Ht Ha. rewrite set_speed_in by exact Hv.
    rewrite set_time_in by exact Ht.
    rewrite set_stop_action_out by exact Ha. reflexivity.
Qed.

Lemma run_for_time_checks_in_order_witness :
  run_for_time Bench.motor (2000 # 1) (-1 # 1) "park" true Bench.w0
  = (Bench.w0, Raised (ValueError "speed is out of range"))
  /\ run_for_time Bench.motor (100 # 1) (-1 # 1) "park" true Bench.w0
     = (put (Bench.node, "speed_sp") (VInt 100) Bench.w0,
        Raised (ValueError "time is out of range"))
  /\ run_for_time Bench.motor (100 # 1) (1 # 1) "park" true Bench.w0
     = (put (Bench.node, "time_sp") (VInt 1000)
            (put (Bench.node, "speed_sp") (VInt 100) Bench.w0),
        Raised (ValueError "Invalid stop action")).
Proof.
  split; [|split].
  - apply (run_for_time_checks_in_order
             Bench.motor (2000 # 1) (-1 # 1) "park" true Bench.w0).
    right. vm_compute. reflexivity.
  - apply (run_for_time_checks_in_order
             Bench.motor (100 # 1) (-1 # 1) "park" true Bench.w0).
    + vm_compute. split; discriminate.
    + vm_compute. reflexivity.
  - apply (run_for_time_checks_in_order
             Bench.motor (100 # 1) (1 # 1) "park" true Bench.w0).
    + vm_compute. split; discriminate.
    + vm_compute. discriminate.
    + intros H.
      repeat (apply elem_of_cons in H as [H|H]; [discriminate H|]).
      apply elem_of_nil in H. exact H.
Defined.

Lemma native_position_opp_opp (m : self) (r : Q) :
  native_position m (- r * -1) = native_position m r.
Proof.
  unfold native_position, Py.int. destruct r as [n d]; cbn.
  rewrite Pos.mul_1_r. f_equal. lia.
Qed.

(** X11.  A negative speed with negative rotations turns the motor
    forward: for [s > 0] in range and a supported stop action,
    [run_for_rotations(-s, -r)] writes the position setpoint
    [int(count_per_rot * r)], the one that [run_for_rotations(s, r)]
    writes, and the speed setpoint of the opposite sign. *)
Theorem two_negatives_turn_forward
    (fuel : nat) (m : self) (s r : Q) (a : string) (wait : bool) (w : world) :
  (0 < s)%Q ->
  - _max_speed m <= native_speed m s <= _max_speed m ->
  a ∈ _stop_actions m ->
  exists polls,
    since w (run_for_rotations fuel m (- s) (- r) a wait w).1
    = [EWrite (sysfs.attr_key (_speed_sp m)) (VInt (- native_speed m s));
       EWrite (sysfs.attr_key (_stop_action m)) (VStr a);
       EWrite (sysfs.attr_key (_position_sp m))
              (VInt (Py.int (inject_Z (_count_per_rot m) * r)));
       EWrite (sysfs.attr_key (_command m)) (VStr "run-to-rel-pos")] ++ polls
    /\ Forall (is_read (sysfs.attr_key (_state m))) polls.
Proof.
  intros Hs Hv Ha. destruct (Qltb_pos s Hs) as [_ Hb].
  assert (Hv' : - _max_speed m <= native_speed m (- s) <= _max_speed m)
    by (rewrite native_speed_opp; lia).
  destruct (rotations_accepted m fuel (- s) (- r) a wait w Hv' Ha)
    as (polls & Hp & Hr).
  exists polls. split; [|exact Hr].
  rewrite Hb, native_speed_opp, native_position_opp_opp in Hp. exact Hp.
Qed.

Lemma two_negatives_turn_forward_witness :
  exists polls,
    since Bench.w0
      (run_for_rotations 3 Bench.motor (- (90 # 1)) (- (3 # 2)) "hold" false
         Bench.w0).1
    = [EWrite (Bench.node, "speed_sp") (VInt (-90));
       EWrite (Bench.node, "stop_action") (VStr "hold");
       EWrite (Bench.node, "position_sp") (VInt 540);
       EWrite (Bench.node, "command") (VStr "run-to-rel-pos")] ++ polls
    /\ Forall (is_read (Bench.node, "state")) polls.
Proof.
  apply (two_negatives_turn_forward 3 Bench.motor (90 # 1) (3 # 2) "hold" false
           Bench.w0).
  - reflexivity.
  - vm_compute. split; discriminate.
  - do 2 apply list_elem_of_further. apply list_elem_of_here.
Defined.

(** ** What a construction caches *)

Section Shown.

Import sysfs.

Lemma wp_read_shown (a : Attribute) (s : string)
    (Q : world -> outcome string -> Prop) (w : world) :
  files w !! attr_key a = Some (VStr s) ->
  feed w !! attr_key a = None ->
  Q (log (ERead (attr_key a) (Some (VStr s))) w) (Done s) ->
  wp (read a) Q w.
Proof.
  intros Hs Hf HQ. unfold wp, read, bind, read_value.
  rewrite Hf, Hs. exact HQ.
Qed.

Lemma wp_read_int_shown (a : Attribute) (z : Z)
    (Q : world -> outcome Z -> Prop) (w : world) :
  files w !! attr_key a = Some (VInt z) ->
  feed w !! attr_key a = None ->
  Q (log (ERead (attr_key a) (Some (VInt z))) w) (Done z) ->
  wp (read_int a) Q w.
Proof.
  intros Hz Hf HQ. unfold wp, read_int, bind, read_value.
  rewrite Hf, Hz. exact HQ.
Qed.

Variables cls port driver : string.
Variable w : world.
Variable node : string.

Hypothesis Hfind :
  (find_node "tacho-motor" (looked_up port) driver w).2 = Done (Some node).
Hypothesis Hpresents : presents w node.

Lemma construction_caches (cs : string) (cpr : Z) (dn : string) (ms : Z)
    (ss : string) :
  files w !! (node, "commands") = Some (VStr cs) ->
  files w !! (node, "count_per_rot") = Some (VInt cpr) ->
  files w !! (node, "driver_name") = Some (VStr dn) ->
  files w !! (node, "max_speed") = Some (VInt ms) ->
  files w !! (node, "stop_actions") = Some (VStr ss) ->
  (__init__ cls port driver w).2
  = Done (motor_on node (looked_up port) cs cpr dn ms ss).
Proof.
  intros Hcs Hcpr Hdn Hms Hss.
  destruct Hpresents as ((_ & Fc) & (_ & Fn) & (_ & Fd) & (_ & Fm) & (_ & Fs) & Hall).
  repeat (apply Forall_cons in Hall as [? Hall]).
  pose proof (find_node_truthy _ _ _ _ _ Hfind) as Htruthy.
  change (wp (__init__ cls port driver)
            (fun _ o => o = Done (motor_on node (looked_up port) cs cpr dn ms ss)) w).
  unfold __init__. fold (looked_up port).
  apply wp_bind, wp_find_node. rewrite Hfind.
  cbn beta iota delta [wp_then]. rewrite Htruthy. cbn [negb].
  repeat (apply wp_bind;
          first [ apply wp_open_present; [assumption|]
                | eapply wp_read_shown; [eassumption|assumption|]
                | eapply wp_read_int_shown; [eassumption|assumption|]
                | apply wp_write ];
          cbn beta iota delta [wp_then]).
  apply wp_ret. reflexivity.
Qed.

End Shown.

(** X12.  On a device node that presents the attributes of a tacho motor,
    the construction returns the motor whose cached properties are what the
    node shows: [count_per_rot] and [max_speed] as read, [driver_name] as
    read, the supported commands and stop actions as the texts read, cut at
    every space; its endpoints are the attributes of that node and its port
    is the looked-up port name. *)
Theorem construction_caches_what_the_device_shows
    (cls port driver : string) (w : world) (node cs : string) (cpr : Z)
    (dn : string) (ms : Z) (ss : string) :
  (sysfs.find_node "tacho-motor" (looked_up port) driver w).2 = Done (Some node) ->
  presents w node ->
  files w !! (node, "commands") = Some (VStr cs) ->
  files w !! (node, "count_per_rot") = Some (VInt cpr) ->
  files w !! (node, "driver_name") = Some (VStr dn) ->
  files w !! (node, "max_speed") = Some (VInt ms) ->
  files w !! (node, "stop_actions") = Some (VStr ss) ->
  (__init__ cls port driver w).2
  = Done (motor_on node (looked_up port) cs cpr dn ms ss).
Proof.
  intros Hfind Hp. apply (construction_caches cls port driver w node Hfind Hp).
Qed.

Lemma construction_caches_what_the_device_shows_witness :
  (LargeMotor "A" Bench.w0).2
  = Done (motor_on Bench.node "ev3-ports:outA"
            "run-forever run-to-rel-pos run-timed run-direct stop reset"
            360 "lego-ev3-l-motor" 1050 "coast brake hold").
Proof.
  apply (construction_caches_what_the_device_shows
           "LargeMotor" "A" EV3_LARGE Bench.w0 Bench.node).
  - vm_compute. reflexivity.
  - unfold presents, has_text, has_int.
    repeat split; try (eexists; vm_compute; reflexivity).
    repeat constructor; eexists; vm_compute; reflexivity.
  - vm_compute. reflexivity.
  - vm_compute. reflexivity.
  - vm_compute. reflexivity.
  - vm_compute. reflexivity.
  - vm_compute. reflexivity.
Defined.

(** ** Words of an attribute text *)

Section Words.

Lemma spaceless_cons (c : ascii) (x : string) :
  spaceless (String c x) = true -> Ascii.eqb c " " = false /\ spaceless x = true.
Proof.
  simpl. intros H. apply andb_true_iff in H as [H1 H2].
  apply negb_true_iff in H1. split; assumption.
Qed.

Lemma split_word (x : string) :
  spaceless x = true -> Py.split " " x = [x].
Proof.
  induction x as [|c x IH]; intros H; [reflexivity|].
  apply spaceless_cons in H as [Hc Hx]. simpl. rewrite Hc, (IH Hx). reflexivity.
Qed.

Lemma split_word_space (x rest : string) :
  spaceless x = true ->
  Py.split " " (x ++ String " " rest)%string = x :: Py.split " " rest.
Proof.
  induction x as [|c x IH]; intros H; [reflexivity|].
  apply spaceless_cons in H as [Hc Hx]. simpl. rewrite Hc, (IH Hx). reflexivity.
Qed.

(** Cutting at every space the words joined by single spaces gives the
    words back. *)
Lemma split_join_words (ws : list string) :
  ws ≠ [] ->
  Forall (fun x => spaceless x = true) ws ->
  Py.split " " (join_words ws) = ws.
Proof.
  intros Hne Hws. induction Hws as [|x ws Hx Hws IH]; [contradiction|].
  destruct ws as [|y ws].
  - simpl. apply split_word, Hx.
  - change (join_words (x :: y :: ws))
      with (x ++ String " " (join_words (y :: ws)))%string.
    rewrite split_word_space by exact Hx. rewrite IH by discriminate.
    reflexivity.
Qed.

End Words.

(** X13.  When the device lists its stop actions as words separated by
    single spaces, the constructed motor supports exactly those words: its
    cached list is the list of words, and the stop-action setter accepts an
    action exactly when it is one of them. *)
Theorem listed_stop_actions_are_the_supported_ones
    (cls port driver : string) (w : world) (node : string) (ws : list string) :
  (sysfs.find_node "tacho-motor" (looked_up port) driver w).2 = Done (Some node) ->
  presents w node ->
  files w !! (node, "stop_actions") = Some (VStr (join_words ws)) ->
  ws ≠ [] ->
  Forall (fun x => spaceless x = true) ws ->
  exists m,
    (__init__ cls port driver w).2 = Done m
    /\ _stop_actions m = ws
    /\ forall a w', (_set_stop_action m a w').2 = Done tt <-> a ∈ ws.
Proof.
  intros Hfind Hp Hss Hne Hws.
  pose proof Hp as (((cs & Hcs) & _) & ((cpr & Hcpr) & _) & ((dn & Hdn) & _)
                    & ((ms & Hms) & _) & _).
  exists (motor_on node (looked_up port) cs cpr dn ms (join_words ws)).
  split; [|split].
  - apply (construction_caches cls port driver w node Hfind Hp); assumption.
  - simpl. apply split_join_words; assumption.
  - intros a w'. unfold _set_stop_action. simpl.
    rewrite split_join_words by assumption.
    destruct (decide (a ∈ ws)) as [Ha|Ha].
    + rewrite bool_decide_eq_true_2 by exact Ha. simpl. tauto.
    + rewrite bool_decide_eq_false_2 by exact Ha. simpl.
      split; [discriminate|contradiction].
Qed.

Lemma listed_stop_actions_are_the_supported_ones_witness :
  exists m,
    (LargeMotor "A" Bench.w0).2 = Done m
    /\ _stop_actions m = ["coast"; "brake"; "hold"]
    /\ forall a w',
         (_set_stop_action m a w').2 = Done tt <-> a ∈ ["coast"; "brake"; "hold"].
Proof.
  apply (listed_stop_actions_are_the_supported_ones
           "LargeMotor" "A" EV3_LARGE Bench.w0 Bench.node
           ["coast"; "brake"; "hold"]).
  - vm_compute. reflexivity.
  - unfold presents, has_text, has_int.
    repeat split; try (eexists; vm_compute; reflexivity).
    repeat constructor; eexists; vm_compute; reflexivity.
  - vm_compute. reflexivity.
  - discriminate.
  - repeat constructor.
Defined.

(** ** Ranges of the setpoints written *)

Ltac in_range :=
  repeat first
    [ apply Forall_nil_2
    | apply Forall_cons; split;
      [ eexists; split; [reflexivity|first [assumption|lia]] | ] ].

Ltac check_writes :=
  first [ rewrite since_same
        | erewrite since_app
            by (cbn [trace put log]; rewrite <- ?app_assoc; reflexivity) ];
  cbn [writes_to app];
  repeat first [ rewrite decide_True by reflexivity
               | rewrite decide_False by (intros [=]) ];
  in_range.

Section Setpoints.

Variable node : string.
Variable m : self.
Hypothesis Hep : endpoints node m.

Lemma exec_setpoints (fuel : nat) (c : call) (w : world) :
  setpoints_ok node m (since w (exec fuel m c w).1).
Proof.
  unfold setpoints_ok.
  destruct c as [speed|speed rotations a wait|speed time a wait|d|a]; simpl exec.
  - unfold run, bind.
    destruct (decide (- _max_speed m <= native_speed m speed <= _max_speed m))
      as [Hv|Hv].
    + rewrite set_speed_in by exact Hv.
      unfold sysfs.write, sysfs.write_value. to_node Hep. simpl.
      split; [|split]; check_writes.
    + rewrite set_speed_out by lia. simpl. split; [|split]; check_writes.
  - destruct (decide (- _max_speed m <= native_speed m speed <= _max_speed m
                      /\ a ∈ _stop_actions m)) as [[Hv Ha]|Hn].
    + destruct (rotations_accepted m fuel speed rotations a wait w Hv Ha)
        as (polls & Hs & Hr).
      rewrite Hs. to_node Hep. rewrite !writes_to_app.
      rewrite !(writes_to_reads _ _ _ Hr), !app_nil_r.
      cbn [writes_to].
      repeat first [ rewrite decide_True by reflexivity
                   | rewrite decide_False by (intros [=]) ].
      split; [|split]; in_range.
    + rewrite rotations_rejected by exact Hn. case_decide as Hv; simpl.
      * to_node Hep. split; [|split]; check_writes.
      * split; [|split]; check_writes.
  - unfold run_for_time, bind.
    destruct (decide (- _max_speed m <= native_speed m speed <= _max_speed m))
      as [Hv|Hv].
    + rewrite set_speed_in by exact Hv.
      destruct (decide (0 <= Py.int (time * 1000))) as [Ht|Ht].
      * rewrite set_time_in by exact Ht.
        destruct (decide (a ∈ _stop_actions m)) as [Ha|Ha].
        -- rewrite set_stop_action_in by exact Ha.
           unfold sysfs.write, sysfs.write_value, sleep. to_node Hep.
           destruct wait; simpl; (split; [|split]); check_writes.
        -- rewrite set_stop_action_out by exact Ha. to_node Hep. simpl.
           split; [|split]; check_writes.
      * rewrite set_time_out by lia. to_node Hep. simpl.
        split; [|split]; check_writes.
    + rewrite set_speed_out by lia. simpl. split; [|split]; check_writes.
  - unfold run_unregulated, bind.
    destruct (decide (-100 <= d <= 100)) as [Hd|Hd].
    + rewrite set_duty_cycle_in by exact Hd.
      unfold sysfs.write, sysfs.write_value. to_node Hep. simpl.
      split; [|split]; check_writes.
    + rewrite set_duty_cycle_out by lia. simpl. split; [|split]; check_writes.
  - unfold stop, bind.
    destruct (decide (a ∈ _stop_actions m)) as [Ha|Ha].
    + rewrite set_stop_action_in by exact Ha.
      unfold sysfs.write, sysfs.write_value. to_node Hep. simpl.
      split; [|split]; check_writes.
    + rewrite set_stop_action_out by exact Ha. simpl.
      split; [|split]; check_writes.
Qed.

End Setpoints.

(** ** Traces only grow *)

Section Grows.

Variable w0 : world.
Variable m : self.

Let grown (w : world) : Prop := exists l, trace w = trace w0 ++ l.

Lemma grown_log (e : event) (w : world) : grown w -> grown (log e w).
Proof.
  intros [l Hl]. exists (l ++ [e]). simpl. rewrite Hl, <- app_assoc. reflexivity.
Qed.

Lemma grown_put (k : key) (v : value) (w : world) : grown w -> grown (put k v w).
Proof.
  intros [l Hl]. exists (l ++ [EWrite k v]). simpl.
  rewrite Hl, <- app_assoc. reflexivity.
Qed.

Lemma keeps_grown_write (a : sysfs.Attribute) (s : string) :
  keeps grown (sysfs.write a s).
Proof. intros w Hw. apply grown_put, Hw. Qed.

Lemma keeps_grown_write_int (a : sysfs.Attribute) (z : Z) :
  keeps grown (sysfs.write_int a z).
Proof. intros w Hw. apply grown_put, Hw. Qed.

Lemma keeps_grown_poll (fuel : nat) : keeps grown (poll fuel m).
Proof.
  intros w [l Hl]. destruct (poll_effect fuel m w) as [(polls & Hp & _) _].
  exists (l ++ polls). rewrite Hp, Hl, <- app_assoc. reflexivity.
Qed.

Lemma keeps_grown_exec (fuel : nat) (c : call) : keeps grown (exec fuel m c).
Proof.
  destruct c as [speed|speed rotations a wait|speed time a wait|d|a]; simpl;
    unfold run, run_for_rotations, run_for_time, run_unregulated, stop,
      _set_speed_sp, _set_stop_action, _set_position_sp, _set_time_sp,
      _set_duty_cycle_sp;
    repeat first
      [ apply keeps_bind; [|intros _]
      | apply keeps_grown_write
      | apply keeps_grown_write_int
      | apply keeps_grown_poll
      | apply keeps_ret
      | apply keeps_raise
      | match goal with
        | |- keeps _ (if ?b then _ else _) => destruct b
        end
      | intros w Hw; apply grown_log, Hw ].
Qed.

End Grows.

(** A call appends to the trace. *)
Lemma exec_appends (fuel : nat) (m : self) (c : call) (w : world) :
  trace (exec fuel m c w).1 = trace w ++ since w (exec fuel m c w).1.
Proof.
  destruct (keeps_grown_exec w m fuel c w) as [l Hl].
  - exists []. symmetry. apply app_nil_r.
  - rewrite (since_app _ _ _ Hl). exact Hl.
Qed.

(** X14.  On a motor with the endpoints of [node], if every value written
    so far to the speed setpoint is an integer between [-max_speed] and
    [max_speed], the same holds after any call of any method. *)
Theorem speed_setpoint_stays_in_range
    (node : string) (m : self) (fuel : nat) (c : call) (w : world) :
  endpoints node m ->
  Forall (speed_value_ok m) (writes_to (node, "speed_sp") (trace w)) ->
  Forall (speed_value_ok m)
    (writes_to (node, "speed_sp") (trace (exec fuel m c w).1)).
Proof.
  intros Hep Hw. rewrite exec_appends, writes_to_app.
  apply Forall_app. split; [exact Hw|].
  apply (exec_setpoints node m Hep fuel c w).
Qed.

Lemma speed_setpoint_stays_in_range_witness :
  Forall (speed_value_ok Bench.motor)
    (writes_to (Bench.node, "speed_sp")
       (trace (exec 0 Bench.motor
                 (RunForRotations (-720 # 1) (1 # 4) "brake" false) Bench.w0).1)).
Proof.
  apply (speed_setpoint_stays_in_range Bench.node Bench.motor 0
           (RunForRotations (-720 # 1) (1 # 4) "brake" false) Bench.w0).
  - constructor; reflexivity.
  - simpl. constructor.
Defined.

(** X15.  On a motor with the endpoints of [node], if every value written
    so far to the duty-cycle setpoint is an integer between -100 and 100,
    the same holds after any call of any method. *)
Theorem duty_cycle_setpoint_stays_in_range
    (node : string) (m : self) (fuel : nat) (c : call) (w : world) :
  endpoints node m ->
  Forall duty_value_ok (writes_to (node, "duty_cycle_sp") (trace w)) ->
  Forall duty_value_ok
    (writes_to (node, "duty_cycle_sp") (trace (exec fuel m c w).1)).
Proof.
  intros Hep Hw. rewrite exec_appends, writes_to_app.
  apply Forall_app. split; [exact Hw|].
  apply (exec_setpoints node m Hep fuel c w).
Qed.

Lemma duty_cycle_setpoint_stays_in_range_witness :
  Forall duty_value_ok
    (writes_to (Bench.node, "duty_cycle_sp")
       (trace (exec 0 Bench.motor (RunUnregulated (-100)) Bench.w0).1)).
Proof.
  apply (duty_cycle_setpoint_stays_in_range Bench.node Bench.motor 0
           (RunUnregulated (-100)) Bench.w0).
  - constructor; reflexivity.
  - simpl. constructor.
Defined.

(** X16.  On a motor with the endpoints of [node], if every value written
    so far to the stop-action attribute is one of the cached supported stop
    actions, the same holds after any call of any method. *)
Theorem stop_action_stays_supported
    (node : string) (m : self) (fuel : nat) (c : call) (w : world) :
  endpoints node m ->
  Forall (action_value_ok m) (writes_to (node, "stop_action") (trace w)) ->
  Forall (action_value_ok m)
    (writes_to (node, "stop_action") (trace (exec fuel m c w).1)).
Proof.
  intros Hep Hw. rewrite exec_appends, writes_to_app.
  apply Forall_app. split; [exact Hw|].
  apply (exec_setpoints node m Hep fuel c w).
Qed.

Lemma stop_action_stays_supported_witness :
  Forall (action_value_ok Bench.motor)
    (writes_to (Bench.node, "stop_action")
       (trace (exec 0 Bench.motor (Stop "coast") Bench.w0).1)).
Proof.
  apply (stop_action_stays_supported Bench.node Bench.motor 0
           (Stop "coast") Bench.w0).
  - constructor; reflexivity.
  - simpl. constructor.
Defined.

(** X17.  A construction that raises, whatever the exception, has written
    nothing to any attribute: the command [reset] is its last step, so a
    motor that was not found or could not be opened or read is never
    reset. *)
Theorem failed_construction_writes_nothing
    (cls port driver : string) (w : world) (e : exn) (k : key) :
  (__init__ cls port driver w).2 = Raised e ->
  writes_to k (since w (__init__ cls port driver w).1) = [].
Proof.
  intros Hr.
  destruct (find_node_returns w "tacho-motor" (looked_up port) driver)
    as [[node|] Hfind].
  - pose proof (init_found cls port driver w node Hfind) as H.
    unfold wp, built in H. rewrite Hr in H.
    destruct H as [_ (l & -> & Hl)]. simpl. apply Hl.
  - rewrite (init_not_found cls port driver w Hfind). simpl.
    rewrite (since_app w _ [EFind "tacho-motor" (looked_up port) driver])
      by reflexivity.
    reflexivity.
Qed.

Lemma failed_construction_writes_nothing_witness :
  writes_to (Bench.node, "command") (since Bench.w0 (MediumMotor "A" Bench.w0).1)
  = [].
Proof.
  apply (failed_construction_writes_nothing "MediumMotor" "A" EV3_MEDIUM Bench.w0
           (MotorNotFoundError "MediumMotor not found on port ev3-ports:outA")).
  vm_compute. reflexivity.
Defined.

(** X18.  Without [wait], [run_for_rotations] with a speed in range and a
    supported stop action returns at once, for any poll budget: it writes
    the speed setpoint, the stop action, the position setpoint and the
    command [run-to-rel-pos], and never reads the state attribute. *)
Theorem rotations_without_wait_return_at_once
    (fuel : nat) (m : self) (speed rotations : Q) (a : string) (w : world) :
  - _max_speed m <= native_speed m speed <= _max_speed m ->
  a ∈ _stop_actions m ->
  let rotations' := if Qltb speed 0 then (rotations * -1)%Q else rotations in
  (run_for_rotations fuel m speed rotations a false w).2 = Done tt
  /\ since w (run_for_rotations fuel m speed rotations a false w).1
     = [EWrite (sysfs.attr_key (_speed_sp m)) (VInt (native_speed m speed));
        EWrite (sysfs.attr_key (_stop_action m)) (VStr a);
        EWrite (sysfs.attr_key (_position_sp m))
               (VInt (Py.int (inject_Z (_count_per_rot m) * rotations')));
        EWrite (sysfs.attr_key (_command m)) (VStr "run-to-rel-pos")].
Proof.
  intros Hv Ha rotations'. unfold run_for_rotations, bind. fold rotations'.
  rewrite set_speed_in by exact Hv.
  rewrite set_stop_action_in by exact Ha.
  rewrite set_position_any. simpl. split; [reflexivity|].
  apply since_app. simpl. rewrite <- !app_assoc. reflexivity.
Qed.

Lemma rotations_without_wait_return_at_once_witness :
  (run_for_rotations 0 Bench.motor (360 # 1) (5 # 2) "hold" false
     (stuck "running")).2 = Done tt
  /\ since (stuck "running")
       (run_for_rotations 0 Bench.motor (360 # 1) (5 # 2) "hold" false
          (stuck "running")).1
     = [EWrite (Bench.node, "speed_sp") (VInt 360);
        EWrite (Bench.node, "stop_action") (VStr "hold");
        EWrite (Bench.node, "position_sp") (VInt 900);
        EWrite (Bench.node, "command") (VStr "run-to-rel-pos")].
Proof.
  apply (rotations_without_wait_return_at_once 0 Bench.motor (360 # 1) (5 # 2)
           "hold" (stuck "running")).
  - vm_compute. split; discriminate.
  - do 2 apply list_elem_of_further. apply list_elem_of_here.
Defined.
